(** * Pointer handlers of the piano-roll note editor

    A shallow embedding of [src/note-mouse-handler.js]: the two handler
    classes [PencilMouseHandler] and [SelectionMouseHandler], the
    drag-position classifier, and the intents they send to the listener.

    Conventions of the embedding.
    - A JavaScript number is embedded twice.  The handlers compute on
      exact rationals ([Q]): this fixes which branch runs, what is called
      on the listener and what is stored, and their theorems give a value
      as the expression the code computes it by.  The lines that do
      arithmetic are embedded again on binary64 numbers (module
      [Binary64]), with [NaN], the infinities and rounding to nearest;
      what depends on the value of a quotient, a sum or a difference is
      stated there.
    - A handler is a computation in a small monad over the fields of [this]:
      it reads and writes the handler state, appends calls made on the
      listener to a trace, and may throw.  A throw keeps the state and the
      trace reached so far, as a JavaScript exception does.
    - Identifiers the file uses but does not define ([quantizer], [Rect],
      the container, the free identifier [selection]) are fields of an
      environment the handlers are parameterised by. *)

From Stdlib Require Import QArith Qpower Qminmax Qround Lqa.
From Stdlib Require Import List String Bool ZArith Lia.
From Stdlib Require Floats.
Import ListNotations.

Local Open Scope Q_scope.

(** ** Geometry *)

Module Point.
Record t : Type := mk { x : Q; y : Q }.
End Point.

Module Rect.
Record t : Type := mk { x : Q; y : Q; width : Q; height : Q }.

Definition set_x (v : Q) (r : t) : t := mk v (y r) (width r) (height r).
Definition set_y (v : Q) (r : t) : t := mk (x r) v (width r) (height r).
Definition set_width (v : Q) (r : t) : t := mk (x r) (y r) v (height r).
Definition set_height (v : Q) (r : t) : t := mk (x r) (y r) (width r) v.
End Rect.

(** A note as drawn on the stage: [e.target] of the note-level events.
    [width] and [height] are those of [getBounds()]. *)
Module NoteView.
Record t : Type := mk { noteId : nat; x : Q; y : Q; width : Q; height : Q }.
End NoteView.

(** An element of [listener.notes]; it is handed to [containsPoint] as a
    point, so only its position matters here. *)
Module Note.
Record t : Type := mk { noteId : nat; x : Q; y : Q }.

Definition point (n : t) : Point.t := Point.mk (x n) (y n).
End Note.

(** The argument of [onCreateNote]. *)
Module NewNote.
Record t : Type := mk { x : Q; y : Q; width : Q }.
End NewNote.

(** ** Events *)

Inductive Target : Type :=
| TargetContainer
| TargetNote (n : NoteView.t).

(** Events dispatched on the stage. *)
Record MouseEvent : Type := mkMouseEvent {
  stageX : Q;
  stageY : Q;
  target : Target
}.

(** Events dispatched on a note ([mousedown] and [pressmove] of a note
    view): the target is the note, and the event carries the pointer
    position local to it. *)
Module NoteEvent.
Record t : Type := mk {
  stageX : Q;
  stageY : Q;
  localX : Q;
  localY : Q;
  target : NoteView.t
}.
End NoteEvent.

(** ** The listener *)

Inductive Call : Type :=
| onCreateNote (bounds : NewNote.t)
| onResizeNote (noteId : nat) (bounds : Rect.t)
| onMoveNotes (notes : list Note.t) (delta : Point.t)
| onSelectNotes (notes : list Note.t)
| onClickNotes (notes : list Note.t) (e : MouseEvent).

Definition isMoveNotes (c : Call) : bool :=
  match c with onMoveNotes _ _ => true | _ => false end.

(** ** The environment *)

Record Quantizer : Type := mkQuantizer {
  floorX : Q -> Q;
  floorY : Q -> Q;
  roundX : Q -> Q;
  roundY : Q -> Q;
  unitX : Q;
  unitY : Q
}.

Record Env : Type := mkEnv {
  quantizer : Quantizer;
  (** [container.globalToLocal] *)
  globalToLocal : Q -> Q -> Point.t;
  (** [container.getObjectUnderPoint], [Some] when the object is a
      [NoteView] *)
  getObjectUnderPoint : Q -> Q -> option NoteView.t;
  (** [obj.globalToLocal] of a note view *)
  noteGlobalToLocal : NoteView.t -> Q -> Q -> Point.t;
  (** [Rect.prototype.containsPoint] *)
  containsPoint : Rect.t -> Point.t -> bool;
  (** [Rect.fromPoints] *)
  fromPoints : Point.t -> Point.t -> Rect.t;
  (** what the free identifier [selection] is bound to where the handlers
      run; [None] when it is not bound at all *)
  selection : option Rect.t
}.

(** The handlers write [quantizer.roundX(v)]; with an environment [env] at
    hand that is [roundX env v]. *)
Coercion quantizer : Env >-> Quantizer.

(** ** Handler computations *)

Inductive Exn : Type := TypeError | ReferenceError.

Inductive Completion (A : Type) : Type :=
| Return (a : A)
| Throw (e : Exn).
Arguments Return {A} a.
Arguments Throw {A} e.

Record Outcome (S A : Type) : Type := mkOutcome {
  completion : Completion A;
  final : S;
  calls : list Call
}.
Arguments mkOutcome {S A}.
Arguments completion {S A}.
Arguments final {S A}.
Arguments calls {S A}.

Definition M (S A : Type) : Type := S -> Outcome S A.

Definition ret {S A} (a : A) : M S A :=
  fun s => mkOutcome (Return a) s [].

Definition bind {S A B} (m : M S A) (k : A -> M S B) : M S B :=
  fun s =>
    let o := m s in
    match completion o with
    | Return a =>
        let o' := k a (final o) in
        mkOutcome (completion o') (final o') (calls o ++ calls o')
    | Throw e => mkOutcome (Throw e) (final o) (calls o)
    end.

Definition get {S} : M S S := fun s => mkOutcome (Return s) s [].
Definition modify {S} (f : S -> S) : M S unit :=
  fun s => mkOutcome (Return tt) (f s) [].
Definition throw {S A} (e : Exn) : M S A :=
  fun s => mkOutcome (Throw e) s [].
Definition call {S} (c : Call) : M S unit :=
  fun s => mkOutcome (Return tt) s [c].

Declare Scope handler_scope.
Delimit Scope handler_scope with handler.
Notation "x <- m ;; k" := (bind m (fun x => k))
  (at level 61, m at next level, right associativity) : handler_scope.
Notation "m ;; k" := (bind m (fun _ => k))
  (at level 61, right associativity) : handler_scope.
Local Open Scope handler_scope.

(** [array.filter] with a callback that may throw: the first throw ends
    the traversal. *)
Fixpoint filterM {S A} (f : A -> M S bool) (l : list A) : M S (list A) :=
  match l with
  | [] => ret []
  | a :: l' =>
      keep <- f a ;;
      rest <- filterM f l' ;;
      ret (if keep then a :: rest else rest)
  end.

(** ** Drag positions *)

Inductive DRAG_POSITION : Type := LEFT_EDGE | CENTER | RIGHT_EDGE.

Module DragPosition.
Record t : Type := mk { x : Q; y : Q; type : DRAG_POSITION }.
End DragPosition.

(** [PencilMouseHandler.getDragPositionType]; it reads no field of
    [this]. *)
Definition getDragPositionType (localX noteWidth : Q) : DRAG_POSITION :=
  let edgeSize := Qmin (noteWidth / 3) 8 in
  if Qle_bool localX edgeSize then LEFT_EDGE
  else if Qle_bool (noteWidth - localX) edgeSize then RIGHT_EDGE
  else CENTER.

(** Events reach a handler object one after the other; a handler that
    throws does not stop the next event from being delivered.  [dispatch]
    gives the outcome of each delivery, in order, every handler starting
    from the state the previous one left. *)
Fixpoint dispatch {S E} (handle : E -> M S unit) (es : list E) (s : S)
  : list (Outcome S unit) :=
  match es with
  | [] => []
  | e :: es' => let o := handle e s in o :: dispatch handle es' (final o)
  end.

(** The state after a run of deliveries that began in [s]. *)
Definition lastState {S A} (s : S) (os : list (Outcome S A)) : S :=
  fold_left (fun _ o => final o) os s.

(** ** PencilMouseHandler *)

Module PencilMouseHandler.

(** The fields of [this] the handlers write: [dragPosition], unset by the
    constructor, and the cursor of the canvas' parent element. *)
Record State : Type := mkState {
  dragPosition : option DragPosition.t;
  cursor : string
}.

Definition constructor (cursor0 : string) : State := mkState None cursor0.

Definition set_dragPosition (d : DragPosition.t) (s : State) : State :=
  mkState (Some d) (cursor s).

Section Handlers.
Variable env : Env.

Definition setCursor (c : string) : M State unit :=
  s <- get ;;
  if negb (String.eqb (cursor s) c)
  then modify (fun s => mkState (dragPosition s) c)
  else ret tt.

Definition onMouseDownNote (e : NoteEvent.t) : M State unit :=
  modify (set_dragPosition
    (DragPosition.mk
       (NoteEvent.localX e)
       (NoteEvent.localY e)
       (getDragPositionType (NoteEvent.localX e)
                            (NoteView.width (NoteEvent.target e))))).

Definition onMouseDown (e : MouseEvent) : M State unit :=
  match target e with
  | TargetContainer =>
      let p := globalToLocal env (stageX e) (stageY e) in
      call (onCreateNote
              (NewNote.mk (floorX env (Point.x p))
                          (floorY env (Point.y p))
                          (unitX env)))
  | TargetNote _ => ret tt
  end.

(** Reading [this.dragPosition.type] while [dragPosition] is unset throws a
    [TypeError]; everything before it in the body is pure. *)
Definition onPressMoveNote (e : NoteEvent.t) : M State unit :=
  let t := NoteEvent.target e in
  let bounds :=
    Rect.mk (NoteView.x t) (NoteView.y t)
            (NoteView.width t) (NoteView.height t) in
  let p := globalToLocal env (NoteEvent.stageX e) (NoteEvent.stageY e) in
  let qx := roundX env (Point.x p) in
  s <- get ;;
  match dragPosition s with
  | None => throw TypeError
  | Some d =>
      let bounds :=
        match DragPosition.type d with
        | LEFT_EDGE =>
            let bounds :=
              Rect.set_width (Rect.width bounds + Rect.x bounds - qx) bounds in
            Rect.set_x qx bounds
        | RIGHT_EDGE =>
            Rect.set_width (qx - Rect.x bounds) bounds
        | CENTER =>
            let bounds :=
              Rect.set_x (roundX env (Point.x p - DragPosition.x d)) bounds in
            Rect.set_y (roundY env (Point.y p - DragPosition.y d)) bounds
        end in
      call (onResizeNote (NoteView.noteId t) bounds)
  end.

Definition onMouseMove (e : MouseEvent) : M State unit :=
  let cpos := globalToLocal env (stageX e) (stageY e) in
  match getObjectUnderPoint env (Point.x cpos) (Point.y cpos) with
  | Some obj =>
      let pos := noteGlobalToLocal env obj (stageX e) (stageY e) in
      match getDragPositionType (Point.x pos) (NoteView.width obj) with
      | LEFT_EDGE | RIGHT_EDGE => setCursor "w-resize"
      | CENTER => setCursor "move"
      end
  | None => setCursor "default"
  end.

(** The events the pencil tool receives. *)
Inductive Event : Type :=
| MouseDownNote (e : NoteEvent.t)
| PressMoveNote (e : NoteEvent.t)
| MouseDown (e : MouseEvent)
| MouseMove (e : MouseEvent).

Definition handle (ev : Event) : M State unit :=
  match ev with
  | MouseDownNote e => onMouseDownNote e
  | PressMoveNote e => onPressMoveNote e
  | MouseDown e => onMouseDown e
  | MouseMove e => onMouseMove e
  end.

(** One drag on a note: the pointer goes down on it, then moves. *)
Definition drag (e0 : NoteEvent.t) (moves : list NoteEvent.t) : list Event :=
  MouseDownNote e0 :: map PressMoveNote moves.

(** The bounds a move of a drag asks for, as the specification words them:
    [LeftEdge] keeps the right edge ([new width = old width + old x - qx],
    [new x = qx]); [RightEdge] keeps the left edge ([new width = qx - old
    x]); [Center] repositions both axes by the offsets taken at drag
    start. *)
Definition spec_dragBounds (region : DRAG_POSITION) (originX originY : Q)
    (e : NoteEvent.t) : Rect.t :=
  let old := NoteEvent.target e in
  let p := globalToLocal env (NoteEvent.stageX e) (NoteEvent.stageY e) in
  let qx := roundX env (Point.x p) in
  match region with
  | LEFT_EDGE =>
      Rect.mk qx (NoteView.y old)
              (NoteView.width old + NoteView.x old - qx) (NoteView.height old)
  | RIGHT_EDGE =>
      Rect.mk (NoteView.x old) (NoteView.y old)
              (qx - NoteView.x old) (NoteView.height old)
  | CENTER =>
      Rect.mk (roundX env (Point.x p - originX))
              (roundY env (Point.y p - originY))
              (NoteView.width old) (NoteView.height old)
  end.

End Handlers.
End PencilMouseHandler.

(** ** SelectionMouseHandler *)

(** Modelled from the spec: the selection view handed to the constructor is
    not among the sources.  It is the specification's SelectionRect, a
    position and a size plus the two flags [fixed] and [visible];
    [getBounds()] gives back the size last given to [setSize]. *)
Module SelectionView.
Record t : Type := mk {
  x : Q;
  y : Q;
  width : Q;
  height : Q;
  fixed : bool;
  visible : bool
}.

Definition set_x (v : Q) (s : t) : t :=
  mk v (y s) (width s) (height s) (fixed s) (visible s).
Definition set_y (v : Q) (s : t) : t :=
  mk (x s) v (width s) (height s) (fixed s) (visible s).
Definition setSize (w h : Q) (s : t) : t :=
  mk (x s) (y s) w h (fixed s) (visible s).
Definition set_fixed (b : bool) (s : t) : t :=
  mk (x s) (y s) (width s) (height s) b (visible s).
Definition set_visible (b : bool) (s : t) : t :=
  mk (x s) (y s) (width s) (height s) (fixed s) b.
End SelectionView.

(** [a || b] on numbers: [b] when [a] is zero. *)
Definition orElse (a b : Q) : Q := if Qeq_bool a 0 then b else a.

Module SelectionMouseHandler.

(** The fields of [this].  The constructor sets [selectedNotes] and
    [isMouseDown]; [start] and [dragOffset] are first set by [onMouseDown];
    [isMouseMoved] is read by [onMouseUp] and, being unset, reads as
    false. *)
Record State : Type := mkState {
  selectionView : SelectionView.t;
  selectedNotes : list Note.t;
  isMouseDown : bool;
  isMouseMoved : bool;
  start : option Point.t;
  dragOffset : option Point.t
}.

Definition constructor (selectionView : SelectionView.t) : State :=
  mkState selectionView [] false false None None.

Definition update_selectionView (f : SelectionView.t -> SelectionView.t)
    (s : State) : State :=
  mkState (f (selectionView s)) (selectedNotes s) (isMouseDown s)
          (isMouseMoved s) (start s) (dragOffset s).
Definition set_selectedNotes (l : list Note.t) (s : State) : State :=
  mkState (selectionView s) l (isMouseDown s) (isMouseMoved s) (start s)
          (dragOffset s).
Definition set_isMouseDown (b : bool) (s : State) : State :=
  mkState (selectionView s) (selectedNotes s) b (isMouseMoved s) (start s)
          (dragOffset s).
Definition set_start (p : Point.t) (s : State) : State :=
  mkState (selectionView s) (selectedNotes s) (isMouseDown s)
          (isMouseMoved s) (Some p) (dragOffset s).
Definition set_dragOffset (p : Point.t) (s : State) : State :=
  mkState (selectionView s) (selectedNotes s) (isMouseDown s)
          (isMouseMoved s) (start s) (Some p).

(** [get selectionRect] *)
Definition selectionRect (s : State) : Rect.t :=
  let v := selectionView s in
  Rect.mk (SelectionView.x v) (SelectionView.y v)
          (SelectionView.width v) (SelectionView.height v).

(** [set selectionRect] *)
Definition set_selectionRect (rect : Rect.t) : State -> State :=
  update_selectionView (fun v =>
    SelectionView.setSize (Rect.width rect) (Rect.height rect)
      (SelectionView.set_y (Rect.y rect)
         (SelectionView.set_x (Rect.x rect) v))).

Section Handlers.
Variable env : Env.

Definition onMouseDown (e : MouseEvent) : M State unit :=
  modify (set_isMouseDown true) ;;
  let start := globalToLocal env (stageX e) (stageY e) in
  modify (set_start start) ;;
  s <- get ;;
  let clicked := containsPoint env (selectionRect s) start in
  (if negb clicked then
     modify (update_selectionView (SelectionView.set_fixed false)) ;;
     modify (update_selectionView (SelectionView.set_visible false)) ;;
     modify (set_selectionRect (Rect.mk (Point.x start) (Point.y start) 0 0)) ;;
     call (onSelectNotes [])
   else ret tt) ;;
  s <- get ;;
  modify (set_dragOffset
    (Point.mk (Point.x start - Rect.x (selectionRect s))
              (Point.y start - Rect.y (selectionRect s)))).

(** The early [return] is the first branch.  Reading a field of
    [this.dragOffset], or handing [this.start] to [Rect.fromPoints], while
    it is unset throws a [TypeError]. *)
Definition onMouseMove (e : MouseEvent) : M State unit :=
  s <- get ;;
  if negb (isMouseDown s) then ret tt
  else
    modify (update_selectionView (SelectionView.set_visible true)) ;;
    let loc := globalToLocal env (stageX e) (stageY e) in
    s <- get ;;
    let bounds := selectionRect s in
    bounds <-
      (if SelectionView.fixed (selectionView s) then
         match dragOffset s with
         | None => throw TypeError
         | Some dragOffset =>
             let qx := roundX env (Point.x loc - Point.x dragOffset) in
             let qy := roundY env (Point.y loc - Point.y dragOffset) in
             call (onMoveNotes (selectedNotes s)
                     (Point.mk (qx - Rect.x bounds) (qy - Rect.y bounds))) ;;
             ret (Rect.set_y qy (Rect.set_x qx bounds))
         end
       else
         match start s with
         | None => throw TypeError
         | Some start =>
             let rect := fromPoints env start loc in
             let bounds := Rect.set_x (roundX env (Rect.x rect)) bounds in
             let bounds := Rect.set_y (roundY env (Rect.y rect)) bounds in
             let bounds :=
               Rect.set_width
                 (orElse
                    (roundX env (Rect.x rect + Rect.width rect)
                     - Rect.x bounds)
                    (unitX env)) bounds in
             let bounds :=
               Rect.set_height
                 (orElse
                    (roundY env (Rect.y rect + Rect.height rect)
                     - Rect.y bounds)
                    (unitY env)) bounds in
             ret bounds
         end) ;;
    modify (set_selectionRect bounds).

(** The callback of the filter in [onMouseUp]: [new Rect(selection)
    .containsPoint(n)].  [selection] is not a field of [this] and no
    binding of the file: it is looked up in the environment. *)
Definition inSelection (n : Note.t) : M State bool :=
  match selection env with
  | None => throw ReferenceError
  | Some r => ret (containsPoint env r (Note.point n))
  end.

(** [notes] is [this.listener.notes] when the event arrives.  A throw of
    the filter leaves [fixed] set and skips the rest of the body, the
    reset of [isMouseDown] included. *)
Definition onMouseUp (notes : list Note.t) (e : MouseEvent) : M State unit :=
  s <- get ;;
  (if negb (SelectionView.fixed (selectionView s)) then
     modify (update_selectionView (SelectionView.set_fixed true)) ;;
     selected <- filterM inSelection notes ;;
     modify (set_selectedNotes selected) ;;
     s <- get ;;
     call (onSelectNotes (selectedNotes s))
   else if negb (isMouseMoved s) then
     call (onClickNotes (selectedNotes s) e)
   else ret tt) ;;
  modify (set_isMouseDown false).

(** The events the selection tool receives. *)
Inductive Event : Type :=
| MouseDown (e : MouseEvent)
| MouseMove (e : MouseEvent)
| MouseUp (notes : list Note.t) (e : MouseEvent).

Definition handle (ev : Event) : M State unit :=
  match ev with
  | MouseDown e => onMouseDown e
  | MouseMove e => onMouseMove e
  | MouseUp notes e => onMouseUp notes e
  end.

(** The states of a handler object: the one its constructor builds and the
    ones its handlers leave, whether they return or throw. *)
Inductive reachable : State -> Prop :=
| reachable_constructor v : reachable (constructor v)
| reachable_handle s ev : reachable s -> reachable (final (handle ev s)).

End Handlers.

(** What every state of a handler object satisfies: [isMouseMoved] has
    never been set, and while the pointer is held [start] and [dragOffset]
    are those of the pointer-down. *)
Definition wellFormed (s : State) : Prop :=
  isMouseMoved s = false /\
  (isMouseDown s = true ->
   exists p off, start s = Some p /\ dragOffset s = Some off).

End SelectionMouseHandler.

(** ** The arithmetic of the handlers in IEEE doubles

    The handlers above compute on exact rationals.  What the program
    computes are IEEE 754 doubles, and a sum or a difference of doubles is
    rounded.  The lines of the source that do arithmetic are embedded here
    a second time, on the binary64 numbers of the kernel ([float], whose
    operations are those of JavaScript numbers: round to nearest, ties to
    even, with [NaN], the infinities and the two zeros).  Properties that
    depend on the value of a sum, a difference or a quotient are stated on
    these definitions. *)

#[local] Set Warnings "-inexact-float".

Module Binary64.
Import Floats.
Local Open Scope float_scope.

(** [Math.min] of two numbers: [NaN] when either is; of the two zeros the
    negative one. *)
Definition Math_min (a b : float) : float :=
  if is_nan a || is_nan b then nan
  else if a <? b then a
  else if b <? a then b
  else if get_sign a then a else b.

(** [PencilMouseHandler.getDragPositionType], lines 67-72. *)
Definition getDragPositionType (localX noteWidth : float) : DRAG_POSITION :=
  let edgeSize := Math_min (noteWidth / 3) 8 in
  if localX <=? edgeSize then LEFT_EDGE
  else if noteWidth - localX <=? edgeSize then RIGHT_EDGE
  else CENTER.

Record Point : Type := mkPoint { px : float; py : float }.

Record Bounds : Type := mkBounds {
  x : float;
  y : float;
  width : float;
  height : float
}.

Definition set_x (v : float) (b : Bounds) : Bounds :=
  mkBounds v (y b) (width b) (height b).
Definition set_y (v : float) (b : Bounds) : Bounds :=
  mkBounds (x b) v (width b) (height b).
Definition set_width (v : float) (b : Bounds) : Bounds :=
  mkBounds (x b) (y b) v (height b).



(** The order of the doubles that are not [NaN], read off a key: the
    class and sign first, then the exponent, then the mantissa. *)
Definition key (f : spec_float) : Z * Z * Z :=
  match f with
  | S754_nan => (0, 0, 0)%Z
  | S754_infinity true => (-2, 0, 0)%Z
  | S754_infinity false => (2, 0, 0)%Z
  | S754_zero _ => (0, 0, 0)%Z
  | S754_finite true m e => (-1, - e, Zneg m)%Z
  | S754_finite false m e => (1, e, Zpos m)%Z
  end.

Definition lexcmp (a b : Z * Z * Z) : comparison :=
  let '(a1, a2, a3) := a in
  let '(b1, b2, b3) := b in
  match (a1 ?= b1)%Z with
  | Eq => match (a2 ?= b2)%Z with Eq => (a3 ?= b3)%Z | c => c end
  | c => c
  end.

Definition notNaN (f : spec_float) : bool :=
  match f with S754_nan => false | _ => true end.

(** The real number a finite double stands for. *)
Definition value (f : float) : Q :=
  match Prim2SF f with
  | S754_finite s m e => (inject_Z (cond_Zopp s (Zpos m)) * Qpower 2 e)%Q
  | _ => 0%Q
  end.






End Binary64.

(** ** A concrete environment

    The general statements below hold for every environment.  Concrete
    runs need one; this is the grid of the specification's examples. *)

(** Modelled from the spec: the quantizer is not among the sources.
    [floor] maps a coordinate down to the start of its grid cell, [round]
    to the nearest grid line ([Math.floor] and [Math.round] of the
    coordinate divided by the unit, times the unit). *)
Definition gridQuantizer (unitX unitY : Q) : Quantizer :=
  let floorTo (u v : Q) := inject_Z (Qfloor (v / u)) * u in
  let roundTo (u v : Q) := inject_Z (Qfloor (v / u + (1 # 2))) * u in
  mkQuantizer (floorTo unitX) (floorTo unitY) (roundTo unitX) (roundTo unitY)
              unitX unitY.

(** Modelled from the spec: [Rect] is not among the sources.  Containment
    of a point in the closed rectangle. *)
Definition rectContainsPoint (r : Rect.t) (p : Point.t) : bool :=
  Qle_bool (Rect.x r) (Point.x p)
  && Qle_bool (Point.x p) (Rect.x r + Rect.width r)
  && Qle_bool (Rect.y r) (Point.y p)
  && Qle_bool (Point.y p) (Rect.y r + Rect.height r).

(** Modelled from the spec: [Rect] is not among the sources.  The rectangle
    spanning two points, whichever way the drag went. *)
Definition rectFromPoints (a b : Point.t) : Rect.t :=
  Rect.mk (Qmin (Point.x a) (Point.x b))
          (Qmin (Point.y a) (Point.y b))
          (Qmax (Point.x a) (Point.x b) - Qmin (Point.x a) (Point.x b))
          (Qmax (Point.y a) (Point.y b) - Qmin (Point.y a) (Point.y b)).

(** Grid of 10 by 12, stage coordinates equal to container coordinates, no
    note under the pointer, and [selection] bound as given. *)
Definition gridEnv (selection : option Rect.t) : Env :=
  mkEnv (gridQuantizer 10 12)
        (fun x y => Point.mk x y)
        (fun _ _ => None)
        (fun n x y => Point.mk (x - NoteView.x n) (y - NoteView.y n))
        rectContainsPoint
        rectFromPoints
        selection.

(** ** Sample gestures *)

(** The note of the specification's example: [{x: 100, y: 0, width: 40}],
    one row of 12 high. *)
Definition sampleNoteView : NoteView.t := NoteView.mk 1 100 0 40 12.

(** A note event at a container-local position, which on the sample
    environment is also the stage position. *)
Definition noteEventAt (x y : Q) (n : NoteView.t) : NoteEvent.t :=
  NoteEvent.mk x y (x - NoteView.x n) (y - NoteView.y n) n.

Definition stageEventAt (x y : Q) : MouseEvent :=
  mkMouseEvent x y TargetContainer.

(** A selection view as created: empty, invisible, not fixed. *)
Definition emptySelectionView : SelectionView.t :=
  SelectionView.mk 0 0 0 0 false false.

Definition sampleNote : Note.t := Note.mk 7 20 12.

(** A marquee from (5, 5) to (47, 30), released with [notes] on the
    stage. *)
Definition marquee (notes : list Note.t) : list SelectionMouseHandler.Event :=
  [ SelectionMouseHandler.MouseDown (stageEventAt 5 5);
    SelectionMouseHandler.MouseMove (stageEventAt 47 30);
    SelectionMouseHandler.MouseUp notes (stageEventAt 47 30) ].

(** A press inside the rectangle that marquee leaves, a move, a release. *)
Definition pressMoveRelease (notes : list Note.t)
  : list SelectionMouseHandler.Event :=
  [ SelectionMouseHandler.MouseDown (stageEventAt 20 20);
    SelectionMouseHandler.MouseMove (stageEventAt 31 20);
    SelectionMouseHandler.MouseUp notes (stageEventAt 31 20) ].

(** A press inside that rectangle and a release, nothing in between. *)
Definition pressRelease (notes : list Note.t)
  : list SelectionMouseHandler.Event :=
  [ SelectionMouseHandler.MouseDown (stageEventAt 20 20);
    SelectionMouseHandler.MouseUp notes (stageEventAt 20 20) ].

(** ** Vocabulary of the further properties *)

(** The cursor the hover handler of the pencil tool chooses for what lies
    under the pointer. *)
Definition cursorOver (region : option DRAG_POSITION) : string :=
  match region with
  | Some LEFT_EDGE | Some RIGHT_EDGE => "w-resize"
  | Some CENTER => "move"
  | None => "default"
  end.

Definition isMouseDownNote (ev : PencilMouseHandler.Event) : bool :=
  match ev with PencilMouseHandler.MouseDownNote _ => true | _ => false end.

Definition isSelectionMouseDown (ev : SelectionMouseHandler.Event) : bool :=
  match ev with SelectionMouseHandler.MouseDown _ => true | _ => false end.

(** * Properties *)

(** ** The drag-position classifier *)

Section Classifier.






End Classifier.

(** ** The classifier in doubles *)

Section Doubles.
Import Floats.
Import Binary64.

(** *** The order of the doubles *)

Lemma SFcompare_key (f g : spec_float) :
  SFcompare f g =
  if notNaN f && notNaN g then Some (lexcmp (key f) (key g)) else None.
Proof.
  destruct f as [s1| s1 | | s1 m1 e1], g as [s2 | s2 | | s2 m2 e2];
    try destruct s1; try destruct s2; try reflexivity; cbn.
  rewrite Z.compare_opp, (Z.compare_antisym e1 e2).
  destruct (e1 ?= e2)%Z; reflexivity.
Qed.

Lemma lexcmp_refl (k : Z * Z * Z) : lexcmp k k = Eq.
Proof. destruct k as [[a b] c]. cbn. now rewrite !Z.compare_refl. Qed.

Lemma lexcmp_antisym (j k : Z * Z * Z) : lexcmp k j = CompOpp (lexcmp j k).
Proof.
  destruct j as [[a b] c], k as [[a' b'] c']. cbn.
  rewrite (Z.compare_antisym a a'), (Z.compare_antisym b b'),
    (Z.compare_antisym c c').
  destruct (a ?= a')%Z, (b ?= b')%Z; reflexivity.
Qed.

Lemma lexcmp_le_trans (i j k : Z * Z * Z) :
  lexcmp i j <> Gt -> lexcmp j k <> Gt -> lexcmp i k <> Gt.
Proof.
  destruct i as [[a1 a2] a3], j as [[b1 b2] b3], k as [[c1 c2] c3]. cbn.
  destruct (Z.compare_spec a1 b1), (Z.compare_spec b1 c1),
    (Z.compare_spec a1 c1); try lia; try congruence;
  destruct (Z.compare_spec a2 b2), (Z.compare_spec b2 c2),
    (Z.compare_spec a2 c2); try lia; try congruence;
  destruct (Z.compare_spec a3 b3), (Z.compare_spec b3 c3),
    (Z.compare_spec a3 c3); try lia; congruence.
Qed.

Local Open Scope float_scope.

Lemma leb_key (a b : float) :
  (a <=? b) =
  notNaN (Prim2SF a) && notNaN (Prim2SF b)
  && match lexcmp (key (Prim2SF a)) (key (Prim2SF b)) with
     | Gt => false | _ => true end.
Proof.
  rewrite leb_spec. unfold SFleb. rewrite SFcompare_key.
  destruct (notNaN _ && notNaN _); [|reflexivity].
  destruct (lexcmp _ _); reflexivity.
Qed.

Lemma ltb_key (a b : float) :
  (a <? b) =
  notNaN (Prim2SF a) && notNaN (Prim2SF b)
  && match lexcmp (key (Prim2SF a)) (key (Prim2SF b)) with
     | Lt => true | _ => false end.
Proof.
  rewrite ltb_spec. unfold SFltb. rewrite SFcompare_key.
  destruct (notNaN _ && notNaN _); [|reflexivity].
  destruct (lexcmp _ _); reflexivity.
Qed.

Lemma is_nan_key (a : float) : is_nan a = negb (notNaN (Prim2SF a)).
Proof.
  unfold is_nan. rewrite eqb_spec. unfold SFeqb. rewrite SFcompare_key.
  destruct (notNaN (Prim2SF a)); cbn; [|reflexivity].
  now rewrite lexcmp_refl.
Qed.

(** a < b excludes b <= a. *)
Lemma ltb_not_leb (a b : float) : (a <? b) = true -> (b <=? a) = false.
Proof.
  rewrite ltb_key, leb_key, (lexcmp_antisym (key (Prim2SF a))).
  destruct (notNaN (Prim2SF a)), (notNaN (Prim2SF b)); cbn; try discriminate;
    try reflexivity.
  destruct (lexcmp _ _); cbn; congruence.
Qed.

Lemma ltb_leb (a b : float) : (a <? b) = true -> (a <=? b) = true.
Proof.
  rewrite ltb_key, leb_key.
  destruct (notNaN (Prim2SF a) && notNaN (Prim2SF b)); cbn; [|discriminate].
  destruct (lexcmp _ _); congruence.
Qed.

Lemma leb_trans (a b c : float) :
  (a <=? b) = true -> (b <=? c) = true -> (a <=? c) = true.
Proof.
  rewrite !leb_key.
  destruct (notNaN (Prim2SF a)), (notNaN (Prim2SF b)), (notNaN (Prim2SF c));
    cbn; try discriminate.
  intros H1 H2.
  pose proof (lexcmp_le_trans (key (Prim2SF a)) (key (Prim2SF b))
                (key (Prim2SF c))) as T.
  destruct (lexcmp (key (Prim2SF a)) (key (Prim2SF b))),
    (lexcmp (key (Prim2SF b)) (key (Prim2SF c))),
    (lexcmp (key (Prim2SF a)) (key (Prim2SF c)));
    try discriminate; try reflexivity; exfalso; apply T; congruence.
Qed.

(** Without a [NaN], one of [b < a] and [a <= b] holds. *)
Lemma leb_total (a b : float) :
  is_nan a = false -> is_nan b = false -> (b <? a) = false ->
  (a <=? b) = true.
Proof.
  rewrite !is_nan_key, ltb_key, leb_key,
    (lexcmp_antisym (key (Prim2SF a)) (key (Prim2SF b))).
  destruct (notNaN (Prim2SF a)), (notNaN (Prim2SF b)); cbn; try discriminate.
  intros _ _. destruct (lexcmp _ _); cbn; congruence.
Qed.

Lemma leb_not_nan (a b : float) :
  (a <=? b) = true -> is_nan a = false /\ is_nan b = false.
Proof.
  rewrite !is_nan_key, leb_key.
  destruct (notNaN (Prim2SF a)), (notNaN (Prim2SF b)); cbn;
    try discriminate; auto.
Qed.

Lemma leb_nan_r (a b : float) : is_nan b = true -> (a <=? b) = false.
Proof.
  rewrite is_nan_key, leb_key. destruct (notNaN (Prim2SF b)); cbn;
    [discriminate|]. intros _. now rewrite andb_false_r.
Qed.

(** *** Rounding keeps the sign *)

Lemma shr_1_nonneg (mrs : shr_record) :
  (0 <= shr_m mrs)%Z -> (0 <= shr_m (shr_1 mrs))%Z.
Proof.
  destruct mrs as [m r s]. cbn [shr_m]. intros H.
  destruct m as [|p|p]; [cbn; lia | | lia].
  destruct p; cbn; lia.
Qed.

Lemma iter_shr_1_nonneg (p : positive) (mrs : shr_record) :
  (0 <= shr_m mrs)%Z -> (0 <= shr_m (iter_pos shr_1 p mrs))%Z.
Proof.
  revert mrs. induction p as [p IH|p IH|]; intros mrs H; cbn.
  - apply IH, IH, shr_1_nonneg, H.
  - apply IH, IH, H.
  - apply shr_1_nonneg, H.
Qed.

Lemma shr_fexp_nonneg (prec emax m e : Z) (l : location) :
  (0 <= m)%Z -> (0 <= shr_m (fst (shr_fexp prec emax m e l)))%Z.
Proof.
  intros H. unfold shr_fexp, shr.
  assert (H0 : (0 <= shr_m (shr_record_of_loc m l))%Z).
  { destruct l as [|[]]; exact H. }
  destruct (_ - e)%Z; cbn [fst]; try exact H0.
  now apply iter_shr_1_nonneg.
Qed.

Lemma round_nearest_even_nonneg (m : Z) (l : location) :
  (0 <= m)%Z -> (0 <= round_nearest_even m l)%Z.
Proof.
  intros H. destruct l as [|[]]; cbn; try exact H; [|lia].
  destruct (Z.even m); lia.
Qed.

(** Rounding a non-negative mantissa with sign [false] gives a number
    that is not below zero: a zero, a positive number or the positive
    infinity. *)
Lemma binary_round_aux_nonneg (prec emax mx ex : Z) (lx : location) :
  (0 <= mx)%Z ->
  SFleb (S754_zero false) (binary_round_aux prec emax false mx ex lx) = true.
Proof.
  intros H. unfold binary_round_aux.
  pose proof (shr_fexp_nonneg prec emax mx ex lx H) as H1.
  destruct (shr_fexp prec emax mx ex lx) as [mrs' e']. cbn [fst] in H1.
  pose proof (shr_fexp_nonneg prec emax _ e' loc_Exact
                (round_nearest_even_nonneg _ (loc_of_shr_record mrs') H1))
    as H2.
  destruct (shr_fexp prec emax _ e' loc_Exact) as [mrs'' e''].
  cbn [fst] in H2.
  destruct (shr_m mrs'') as [|m|m]; [reflexivity | | lia].
  destruct (e'' <=? emax - prec)%Z; reflexivity.
Qed.

Lemma SFdiv_nonneg (prec emax : Z) (x : spec_float) (my : positive) (ey : Z) :
  SFleb (S754_zero false) x = true ->
  SFleb (S754_zero false) (SFdiv prec emax x (S754_finite false my ey))
  = true.
Proof.
  destruct x as [s|s| |s mx ex]; try destruct s; try discriminate;
    try reflexivity.
  intros _. unfold SFdiv, SFdiv_core_binary.
  set (m' := match _ with Z0 => _ | Zpos _ => _ | Zneg _ => _ end).
  assert (Hm : (0 <= m')%Z).
  { unfold m'. destruct (_ - _ - _)%Z; try lia.
    apply Z.shiftl_nonneg. lia. }
  pose proof (Z.div_pos m' (Zpos my) Hm ltac:(lia)) as Hq.
  unfold Z.div in Hq.
  destruct (Z.div_eucl m' (Zpos my)) as [q r].
  now apply binary_round_aux_nonneg.
Qed.

(** *** Rounding, step by step

    The quotient by 3 and the difference of two doubles above 8 are
    followed through the steps of the specification of binary64
    arithmetic: the mantissa is shifted to 53 bits, rounded to nearest,
    and shifted once more when the rounding carries. *)

Section RoundingSteps.
Local Open Scope Z_scope.

Lemma fexp_eq (x : Z) : fexp prec emax x = Z.max (x - 53) (-1074).
Proof. reflexivity. Qed.

Lemma digits2_size (p : positive) : digits2_pos p = Pos.size p.
Proof. induction p; cbn; congruence. Qed.

Lemma digits2_le (p : positive) (k : Z) :
  0 <= k -> Zpos p < 2 ^ k -> Zpos (digits2_pos p) <= k.
Proof.
  intros Hk H. rewrite digits2_size.
  pose proof (Pos.size_le p) as L.
  apply Pos2Z.pos_le_pos in L. rewrite Pos2Z.inj_pow in L.
  change (Z.pos p~0) with (2 * Z.pos p) in L.
  destruct (Z_le_gt_dec (Zpos (Pos.size p)) k) as [|G]; [assumption|].
  exfalso.
  assert (2 ^ (k + 1) <= 2 ^ Zpos (Pos.size p))
    by (apply Z.pow_le_mono_r; lia).
  rewrite Z.pow_add_r, Z.pow_1_r in H0 by lia. lia.
Qed.

Lemma digits2_ge (p : positive) (k : Z) :
  0 <= k -> 2 ^ k <= Zpos p -> k < Zpos (digits2_pos p).
Proof.
  intros Hk H. rewrite digits2_size.
  pose proof (Pos.size_gt p) as L.
  apply Pos2Z.pos_lt_pos in L. rewrite Pos2Z.inj_pow in L.
  destruct (Z_lt_le_dec k (Zpos (Pos.size p))) as [|G]; [assumption|].
  exfalso.
  assert (2 ^ Zpos (Pos.size p) <= 2 ^ k)
    by (apply Z.pow_le_mono_r; lia).
  lia.
Qed.

Lemma Zdigits2_le (q k : Z) : 0 <= q -> 0 <= k -> q < 2 ^ k -> Zdigits2 q <= k.
Proof.
  intros Hq Hk H. destruct q as [|p|p]; cbn; [lia | | lia].
  now apply digits2_le.
Qed.

Lemma loc_of_record (m : Z) (l : location) :
  loc_of_shr_record (shr_record_of_loc m l) = l.
Proof. destruct l as [|[]]; reflexivity. Qed.

Lemma shr_m_record (m : Z) (l : location) :
  shr_m (shr_record_of_loc m l) = m.
Proof. destruct l as [|[]]; reflexivity. Qed.

Lemma round_nearest_even_bounds (m : Z) (l : location) :
  m <= round_nearest_even m l <= m + 1.
Proof.
  destruct l as [|[]]; cbn [round_nearest_even]; try lia.
  destruct (Z.even m); lia.
Qed.

Lemma shr_fexp_stay (q e : Z) (l : location) :
  0 <= q -> q < 2 ^ 53 -> -1074 <= e ->
  shr_fexp prec emax q e l = (shr_record_of_loc q l, e).
Proof.
  intros H0 H1 He. unfold shr_fexp, shr. rewrite fexp_eq.
  pose proof (Zdigits2_le q 53 H0 ltac:(lia) H1) as D.
  destruct (Z.max (Zdigits2 q + e - 53) (-1074) - e) eqn:E;
    try reflexivity.
  lia.
Qed.

Lemma shr_1_m (r : shr_record) :
  0 <= shr_m r -> shr_m (shr_1 r) = shr_m r / 2.
Proof.
  destruct r as [m r s]. cbn [shr_m]. intros H.
  destruct m as [|[p|p|]|p]; cbn [shr_1 shr_m].
  - reflexivity.
  - apply (Z.div_unique _ _ _ 1); lia.
  - apply (Z.div_unique _ _ _ 0); lia.
  - reflexivity.
  - lia.
Qed.

Lemma shr_fexp_one (q e : Z) (l : location) :
  2 ^ 53 <= q -> q < 2 ^ 54 -> -1074 <= e ->
  shr_fexp prec emax q e l = (shr_1 (shr_record_of_loc q l), e + 1).
Proof.
  intros H0 H1 He. unfold shr_fexp, shr. rewrite fexp_eq.
  assert (D : Zdigits2 q = 54).
  { pose proof (Zdigits2_le q 54 ltac:(lia) ltac:(lia) H1).
    destruct q as [|p|p]; try lia. cbn in *.
    pose proof (digits2_ge p 53 ltac:(lia) H0). lia. }
  rewrite D.
  replace (Z.max (54 + e - 53) (-1074) - e) with 1 by lia.
  reflexivity.
Qed.

(** The last step of [binary_round_aux] on a mantissa below [2 ^ 53]. *)
Lemma finish_small (m1 e1 : Z) (mw : positive) (ew : Z) :
  0 <= m1 -> m1 < 2 ^ 53 -> -1074 <= e1 -> ew <= 971 ->
  e1 < ew \/ (e1 = ew /\ m1 < Zpos mw) ->
  SFltb
    (let '(mrs, e) := shr_fexp prec emax m1 e1 loc_Exact in
     match shr_m mrs with
     | Z0 => S754_zero false
     | Zpos m =>
         if e <=? emax - prec then S754_finite false m e
         else S754_infinity false
     | Zneg _ => S754_nan
     end)
    (S754_finite false mw ew) = true.
Proof.
  intros H0 H1 He Hw Hc.
  rewrite (shr_fexp_stay m1 e1 loc_Exact H0 H1 He).
  cbn [shr_m shr_record_of_loc].
  destruct m1 as [|m|m]; [reflexivity| |lia].
  replace (e1 <=? emax - prec) with true
    by (symmetry; apply Z.leb_le; change (emax - prec) with 971; lia).
  unfold SFltb, SFcompare.
  destruct (Z.compare_spec e1 ew) as [E|E|E]; [|reflexivity|lia].
  destruct Hc as [Hc|[_ Hc]]; [lia|].
  change (Pos.compare_cont Eq m mw) with (Pos.compare m mw).
  now rewrite (proj2 (Pos.compare_lt_iff m mw) Hc).
Qed.

Lemma finish_carry (e1 : Z) (mw : positive) (ew : Z) :
  -1074 <= e1 -> ew <= 971 -> e1 + 1 < ew ->
  SFltb
    (let '(mrs, e) := shr_fexp prec emax (2 ^ 53) e1 loc_Exact in
     match shr_m mrs with
     | Z0 => S754_zero false
     | Zpos m =>
         if e <=? emax - prec then S754_finite false m e
         else S754_infinity false
     | Zneg _ => S754_nan
     end)
    (S754_finite false mw ew) = true.
Proof.
  intros He Hw Hc.
  rewrite (shr_fexp_one (2 ^ 53) e1 loc_Exact ltac:(lia) ltac:(lia) He).
  cbn [shr_record_of_loc shr_1 shr_m Z.pow Z.pow_pos Pos.iter Z.mul Pos.mul].
  replace (e1 + 1 <=? emax - prec) with true
    by (symmetry; apply Z.leb_le; change (emax - prec) with 971; lia).
  unfold SFltb, SFcompare.
  destruct (Z.compare_spec (e1 + 1) ew) as [E|E|E]; [lia|reflexivity|lia].
Qed.

Lemma round_below (q e : Z) (l : location) (mw : positive) (ew : Z) :
  0 <= q -> -1074 <= e -> ew <= 971 ->
  (q < 2 ^ 53 /\ e + 1 < ew) \/
  (q + 1 < 2 ^ 53 /\ (e < ew \/ (e = ew /\ q + 1 < Zpos mw))) \/
  (2 ^ 53 <= q /\ q / 2 + 1 < 2 ^ 53 /\ e + 1 < ew) ->
  SFltb (binary_round_aux prec emax false q e l) (S754_finite false mw ew)
  = true.
Proof.
  intros H0 He Hw Hc. unfold binary_round_aux.
  destruct Hc as [[H1 H2]|[[H1 H2]|(H1 & H2 & H3)]].
  - rewrite (shr_fexp_stay q e l H0 H1 He).
    rewrite loc_of_record, shr_m_record.
    pose proof (round_nearest_even_bounds q l) as B.
    destruct (Z.eq_dec (round_nearest_even q l) (2 ^ 53)) as [->|N].
    + now apply finish_carry.
    + apply finish_small; lia.
  - rewrite (shr_fexp_stay q e l H0 ltac:(lia) He).
    rewrite loc_of_record, shr_m_record.
    pose proof (round_nearest_even_bounds q l) as B.
    apply finish_small; lia.
  - assert (q < 2 ^ 54).
    { assert (q / 2 < 2 ^ 53 - 1) by lia.
      change (2 ^ 54) with (2 * 2 ^ 53).
      pose proof (Z.mul_succ_div_gt q 2 ltac:(lia)). lia. }
    rewrite (shr_fexp_one q e l H1 H He).
    pose proof (shr_1_m (shr_record_of_loc q l)) as M.
    rewrite shr_m_record in M. specialize (M H0).
    pose proof (round_nearest_even_bounds
                  (shr_m (shr_1 (shr_record_of_loc q l)))
                  (loc_of_shr_record (shr_1 (shr_record_of_loc q l)))) as B.
    rewrite M in B.
    assert (0 <= q / 2) by (apply Z.div_pos; lia).
    apply finish_small; rewrite ?M; lia.
Qed.

Lemma SFdiv_3_below (mw : positive) (ew : Z) :
  valid_binary (S754_finite false mw ew) = true ->
  SFltb
    (SFdiv prec emax (S754_finite false mw ew)
       (S754_finite false 6755399441055744 (-51)))
    (S754_finite false mw ew) = true.
Proof.
  unfold valid_binary. cbn [SpecFloat.valid_binary].
  unfold bounded, canonical_mantissa.
  rewrite andb_true_iff, Z.eqb_eq, Z.leb_le, fexp_eq.
  change (emax - prec) with 971.
  intros [Hc Hw].
  assert (Hd : Zpos (digits2_pos mw) <= 53) by lia.
  assert (Hm : Zpos mw < 2 ^ 53).
  { destruct (Z_lt_le_dec (Zpos mw) (2 ^ 53)) as [|G]; [assumption|].
    pose proof (digits2_ge mw 53 ltac:(lia) G). lia. }
  unfold SFdiv, SFdiv_core_binary. cbn [xorb].
  change (Zdigits2 (Zpos mw)) with (Zpos (digits2_pos mw)).
  change (Zdigits2 6755399441055744) with 53.
  rewrite fexp_eq.
  destruct (Z.eq_dec ew (-1074)) as [->|N1].
  - (* the smallest exponent *)
    replace (Z.min (Z.max (Z.pos (digits2_pos mw) + -1074 - (53 + -51) - 53)
                      (-1074)) (-1074 - -51)) with (-1074) by lia.
    change (-1074 - -51 - -1074) with 51.
    rewrite Z.shiftl_mul_pow2 by lia.
    pose proof (Z_div_mod (Zpos mw * 2 ^ 51) 6755399441055744 eq_refl) as E.
    destruct (Z.div_eucl (Zpos mw * 2 ^ 51) 6755399441055744) as [q r].
    destruct E as [E R].
    change (2 ^ 51) with 2251799813685248 in E.
    destruct (Z.eq_dec (Zpos mw) 1) as [M|M].
    + injection M as ->.
      assert (q = 0) by lia. assert (r = 2251799813685248) by lia.
      subst q r. reflexivity.
    + apply round_below; lia.
  - assert (D : Zpos (digits2_pos mw) = 53) by lia.
    assert (Hl : 2 ^ 52 <= Zpos mw).
    { destruct (Z_lt_le_dec (Zpos mw) (2 ^ 52)) as [L|]; [|assumption].
      pose proof (digits2_le mw 52 ltac:(lia) L). lia. }
    rewrite D.
    destruct (Z.eq_dec ew (-1073)) as [->|N2].
    + replace (Z.min (Z.max (53 + -1073 - (53 + -51) - 53) (-1074))
                 (-1073 - -51)) with (-1074) by lia.
      change (-1073 - -51 - -1074) with 52.
      rewrite Z.shiftl_mul_pow2 by lia.
      pose proof (Z_div_mod (Zpos mw * 2 ^ 52) 6755399441055744 eq_refl) as E.
      destruct (Z.div_eucl (Zpos mw * 2 ^ 52) 6755399441055744) as [q r].
      destruct E as [E R].
      change (2 ^ 52) with 4503599627370496 in *.
      change (2 ^ 53) with 9007199254740992 in *.
      apply round_below; lia.
    + replace (Z.min (Z.max (53 + ew - (53 + -51) - 53) (-1074))
                 (ew - -51)) with (ew - 2) by lia.
      replace (ew - -51 - (ew - 2)) with 53 by lia.
      rewrite Z.shiftl_mul_pow2 by lia.
      pose proof (Z_div_mod (Zpos mw * 2 ^ 53) 6755399441055744 eq_refl) as E.
      destruct (Z.div_eucl (Zpos mw * 2 ^ 53) 6755399441055744) as [q r].
      destruct E as [E R].
      change (2 ^ 52) with 4503599627370496 in *.
      change (2 ^ 53) with 9007199254740992 in *.
      apply round_below; try lia.
      destruct (Z_lt_le_dec q 9007199254740992) as [L|G].
      * left. change (2 ^ 53) with 9007199254740992. lia.
      * right. right. change (2 ^ 53) with 9007199254740992.
        split; [assumption|]. split; [|lia].
        assert (q / 2 < 9007199254740991); [|lia].
        apply Z.div_lt_upper_bound; lia.
Qed.

(** The same steps from below: a difference above 8 is above 8 when
    rounded. *)

Lemma iter_xO (m d : positive) :
  Zpos (Pos.iter xO m d) = Zpos m * 2 ^ Zpos d.
Proof.
  induction d as [|d IH] using Pos.peano_ind.
  - cbn [Pos.iter]. lia.
  - rewrite Pos.iter_succ, Pos2Z.inj_succ, Z.pow_succ_r by lia.
    rewrite Pos2Z.inj_xO, IH. lia.
Qed.

Lemma shl_align_fst (m : positive) (e ez : Z) :
  ez <= e -> Zpos (fst (shl_align m e ez)) = Zpos m * 2 ^ (e - ez).
Proof.
  intros H. unfold shl_align.
  destruct (ez - e) as [|d|d] eqn:E; cbn [fst].
  - replace (e - ez) with 0 by lia. lia.
  - lia.
  - rewrite iter_xO. f_equal. f_equal. lia.
Qed.

Lemma shl_align_snd (m : positive) (e ez : Z) :
  snd (shl_align m e ez) = Z.min e ez.
Proof.
  unfold shl_align.
  destruct (ez - e) as [|d|d] eqn:E; cbn [snd]; lia.
Qed.

Lemma iter_shr_1_m (p : positive) (r : shr_record) :
  0 <= shr_m r -> shr_m (iter_pos shr_1 p r) = shr_m r / 2 ^ Zpos p.
Proof.
  revert r. induction p as [p IH|p IH|]; intros r H; cbn [iter_pos].
  - assert (H1 : 0 <= shr_m (shr_1 r))
      by (rewrite shr_1_m; [apply Z.div_pos|]; lia).
    assert (H2 : 0 <= shr_m (iter_pos shr_1 p (shr_1 r)))
      by (rewrite IH; [apply Z.div_pos|]; lia).
    rewrite IH, IH, shr_1_m by assumption.
    rewrite !Z.div_div by lia. f_equal.
    rewrite Pos2Z.inj_xI, Z.pow_add_r, Z.pow_mul_r by lia.
    change (2 ^ 2) with 4. change (2 ^ 1) with 2.
    rewrite <- Z.pow_twice_r. rewrite Z.pow_mul_r by lia.
    change (2 ^ 2) with 4. lia.
  - assert (H2 : 0 <= shr_m (iter_pos shr_1 p r))
      by (rewrite IH; [apply Z.div_pos|]; lia).
    rewrite IH, IH by assumption.
    rewrite !Z.div_div by lia. f_equal.
    rewrite Pos2Z.inj_xO, <- Z.pow_twice_r. reflexivity.
  - now apply shr_1_m.
Qed.

Lemma Zdigits2_bounds (p : positive) :
  2 ^ (Zpos (digits2_pos p) - 1) <= Zpos p < 2 ^ Zpos (digits2_pos p).
Proof.
  rewrite digits2_size. split.
  - pose proof (Pos.size_le p) as L.
    apply Pos2Z.pos_le_pos in L. rewrite Pos2Z.inj_pow in L.
    change (Z.pos p~0) with (2 * Z.pos p) in L.
    replace (Zpos (Pos.size p)) with (Z.succ (Zpos (Pos.size p) - 1)) in L
      by lia.
    rewrite Z.pow_succ_r in L by lia. lia.
  - pose proof (Pos.size_gt p) as L.
    apply Pos2Z.pos_lt_pos in L. now rewrite Pos2Z.inj_pow in L.
Qed.

(** The last step of [binary_round_aux] on a mantissa of at most 53 bits,
    or on [2 ^ 53]. *)
Lemma finish_above (m1 e1 : Z) :
  0 < m1 -> m1 <= 2 ^ 53 -> -1074 <= e1 ->
  -49 < e1 \/ (e1 = -49 /\ 2 ^ 52 < m1) ->
  SFltb (S754_finite false 4503599627370496 (-49))
    (let '(mrs, e) := shr_fexp prec emax m1 e1 loc_Exact in
     match shr_m mrs with
     | Z0 => S754_zero false
     | Zpos m =>
         if e <=? emax - prec then S754_finite false m e
         else S754_infinity false
     | Zneg _ => S754_nan
     end) = true.
Proof.
  intros H0 H1 He Hc.
  destruct (Z.eq_dec m1 (2 ^ 53)) as [->|N].
  - rewrite (shr_fexp_one (2 ^ 53) e1 loc_Exact ltac:(lia) ltac:(lia) He).
    cbn [shr_record_of_loc shr_1 shr_m Z.pow Z.pow_pos Pos.iter Z.mul
         Pos.mul].
    destruct (e1 + 1 <=? emax - prec); [|reflexivity].
    unfold SFltb, SFcompare.
    destruct (Z.compare_spec (-49) (e1 + 1)) as [E|E|E];
      [lia|reflexivity|lia].
  - rewrite (shr_fexp_stay m1 e1 loc_Exact ltac:(lia) ltac:(lia) He).
    cbn [shr_m shr_record_of_loc].
    destruct m1 as [|m|m]; [lia| |lia].
    destruct (e1 <=? emax - prec); [|reflexivity].
    unfold SFltb, SFcompare.
    destruct (Z.compare_spec (-49) e1) as [E|E|E]; [|reflexivity|lia].
    destruct Hc as [Hc|[_ Hc]]; [lia|].
    change (Pos.compare_cont Eq 4503599627370496 m)
      with (Pos.compare 4503599627370496 m).
    change (2 ^ 52) with (Zpos 4503599627370496) in Hc.
    now rewrite (proj2 (Pos.compare_lt_iff 4503599627370496 m) Hc).
Qed.

Lemma binary_round_aux_above (q e : Z) :
  0 < q -> -49 <= e -> 2 ^ 52 < q * 2 ^ (e + 49) ->
  2 ^ 52 <= q ->
  SFltb (S754_finite false 4503599627370496 (-49))
    (binary_round_aux prec emax false q e loc_Exact) = true.
Proof.
  intros H0 He Hv Hq. unfold binary_round_aux.
  destruct q as [|p|p]; try lia.
  pose proof (Zdigits2_bounds p) as [B1 B2].
  set (d := Zpos (digits2_pos p)) in *.
  assert (Hd : 53 <= d).
  { destruct (Z_lt_le_dec d 53) as [L|]; [|assumption]. exfalso.
    assert (2 ^ d <= 2 ^ 52) by (apply Z.pow_le_mono_r; lia). lia. }
  destruct (Z.eq_dec d 53) as [E53|N53].
  - rewrite E53 in B2.
    rewrite (shr_fexp_stay (Zpos p) e loc_Exact ltac:(lia) B2 ltac:(lia)).
    cbn [shr_record_of_loc shr_m loc_of_shr_record round_nearest_even].
    apply finish_above; try lia.
    destruct (Z.eq_dec e (-49)) as [->|]; [|lia].
    right. split; [reflexivity|]. change (2 ^ (-49 + 49)) with 1 in Hv. lia.
  - unfold shr_fexp at 1. unfold shr. rewrite fexp_eq.
    change (Zdigits2 (Zpos p)) with d.
    destruct (Z.max (d + e - 53) (-1074) - e) as [|k|k] eqn:Ek; try lia.
    assert (Hk : Zpos k = d - 53) by lia.
    pose proof (iter_shr_1_m k (shr_record_of_loc (Zpos p) loc_Exact)) as M.
    cbn [shr_record_of_loc shr_m] in M. specialize (M ltac:(lia)).
    set (r := iter_pos shr_1 k _) in *.
    pose proof (round_nearest_even_bounds (shr_m r) (loc_of_shr_record r))
      as R.
    assert (Hp : 0 < 2 ^ Zpos k) by (apply Z.pow_pos_nonneg; lia).
    assert (L1 : 2 ^ 52 <= shr_m r).
    { rewrite M. apply Z.div_le_lower_bound; [assumption|].
      rewrite <- Z.pow_add_r by lia.
      replace (Zpos k + 52) with (d - 1) by lia. exact B1. }
    assert (L2 : shr_m r < 2 ^ 53).
    { rewrite M. apply Z.div_lt_upper_bound; [assumption|].
      rewrite <- Z.pow_add_r by lia.
      replace (Zpos k + 53) with d by lia. exact B2. }
    apply finish_above; lia.
Qed.

Lemma binary_round_above (md : positive) (ez : Z) :
  -49 <= ez -> 2 ^ 52 < Zpos md * 2 ^ (ez + 49) ->
  SFltb (S754_finite false 4503599627370496 (-49))
    (binary_round prec emax false md ez) = true.
Proof.
  intros He Hv. unfold binary_round. rewrite fexp_eq.
  pose proof (Zdigits2_bounds md) as [B1 B2].
  set (d := Zpos (digits2_pos md)) in *.
  pose proof (shl_align_snd md ez (Z.max (d + ez - 53) (-1074))) as S2.
  destruct (Z_lt_le_dec d 53) as [L|G].
  - assert (Hd : 52 < d + ez + 49).
    { destruct (Z_lt_le_dec 52 (d + ez + 49)) as [|C]; [assumption|].
      exfalso.
      assert (2 ^ (d + ez + 49) <= 2 ^ 52) by (apply Z.pow_le_mono_r; lia).
      replace (d + ez + 49) with (d + (ez + 49)) in H by lia.
      rewrite Z.pow_add_r in H by lia.
      assert (0 < 2 ^ (ez + 49)) by (apply Z.pow_pos_nonneg; lia).
      nia. }
    pose proof (shl_align_fst md ez (Z.max (d + ez - 53) (-1074))
                  ltac:(lia)) as S1.
    destruct (shl_align md ez _) as [mz ez']. cbn [fst snd] in S1, S2.
    replace (ez - Z.max (d + ez - 53) (-1074)) with (53 - d) in S1 by lia.
    assert (E' : ez' = d + ez - 53) by lia.
    assert (P : 2 ^ (53 - d) * 2 ^ (ez' + 49) = 2 ^ (ez + 49)).
    { rewrite <- Z.pow_add_r by lia. f_equal. lia. }
    assert (P' : 2 ^ (d - 1) * 2 ^ (53 - d) = 2 ^ 52).
    { rewrite <- Z.pow_add_r by lia. f_equal. lia. }
    assert (0 < 2 ^ (53 - d)) by (apply Z.pow_pos_nonneg; lia).
    apply binary_round_aux_above;
      [lia | lia | rewrite S1, <- Z.mul_assoc, P; exact Hv |].
    rewrite S1, <- P'. apply Z.mul_le_mono_nonneg_r; lia.
  - assert (S0 : shl_align md ez (Z.max (d + ez - 53) (-1074)) = (md, ez)).
    { unfold shl_align.
      destruct (Z.max (d + ez - 53) (-1074) - ez) eqn:E; try reflexivity.
      lia. }
    rewrite S0.
    apply binary_round_aux_above; try lia.
    assert (2 ^ 52 <= 2 ^ (d - 1)) by (apply Z.pow_le_mono_r; lia). lia.
Qed.

Lemma SFsub_above (mw mo : positive) (ew eo : Z) :
  -49 <= eo -> -49 <= ew ->
  2 ^ 52 <
  (Zpos mw * 2 ^ (ew - Z.min ew eo) - Zpos mo * 2 ^ (eo - Z.min ew eo))
  * 2 ^ (Z.min ew eo + 49) ->
  SFltb (S754_finite false 4503599627370496 (-49))
    (SFsub prec emax (S754_finite false mw ew) (S754_finite false mo eo))
  = true.
Proof.
  intros Ho Hw Hv. unfold SFsub. cbn [cond_Zopp].
  rewrite !shl_align_fst by lia.
  set (D := _ - _) in *.
  assert (0 < 2 ^ (Z.min ew eo + 49)) by (apply Z.pow_pos_nonneg; lia).
  destruct D as [|md|md]; try nia.
  cbn [binary_normalize]. apply binary_round_above; [lia | exact Hv].
Qed.

(** Exact sums and differences. *)









End RoundingSteps.

Local Open Scope float_scope.

Lemma div_3_nonneg (w : float) : (0 <=? w) = true -> (0 <=? w / 3) = true.
Proof.
  rewrite !leb_spec, div_spec.
  change (Prim2SF 0) with (S754_zero false).
  change (Prim2SF 3) with (S754_finite false 6755399441055744 (-51)).
  apply SFdiv_nonneg.
Qed.

(** A finite number less itself is the positive zero. *)
Lemma sub_diag (w : float) :
  is_finite w = true -> Prim2SF (w - w) = S754_zero false.
Proof.
  intros H. rewrite sub_spec.
  unfold is_finite, is_infinity in H.
  rewrite is_nan_key, eqb_spec, abs_spec in H.
  destruct (Prim2SF w) as [s|s| |s m e]; try discriminate H.
  - destruct s; reflexivity.
  - cbn. rewrite Z.sub_diag. reflexivity.
Qed.

Lemma ltb_irrefl (a : float) : (a <? a) = false.
Proof.
  rewrite ltb_key, lexcmp_refl. now rewrite andb_false_r.
Qed.

Lemma leb_refl (a : float) : is_nan a = false -> (a <=? a) = true.
Proof.
  intros H. apply leb_total; [exact H | exact H | apply ltb_irrefl].
Qed.

(** *** [Math.min] *)

Lemma Math_min_cases (a b : float) :
  is_nan a = false -> is_nan b = false ->
  (Math_min a b = a /\ (a <=? b) = true) \/
  (Math_min a b = b /\ (b <=? a) = true).
Proof.
  intros Ha Hb. unfold Math_min. rewrite Ha, Hb. cbn [orb].
  destruct (a <? b) eqn:Eab; [left; split; [reflexivity | now apply ltb_leb]|].
  destruct (b <? a) eqn:Eba;
    [right; split; [reflexivity | now apply ltb_leb]|].
  destruct (get_sign a).
  - left. split; [reflexivity | now apply leb_total].
  - right. split; [reflexivity | now apply leb_total].
Qed.

Lemma Math_min_not_nan (a b : float) :
  is_nan (Math_min a b) = false -> is_nan a = false /\ is_nan b = false.
Proof.
  unfold Math_min. destruct (is_nan a), (is_nan b); cbn [orb]; auto;
    intros H; vm_compute in H; discriminate.
Qed.

Lemma Math_min_le_r (a b : float) :
  is_nan (Math_min a b) = false -> (Math_min a b <=? b) = true.
Proof.
  intros H. destruct (Math_min_not_nan a b H) as [Ha Hb].
  destruct (Math_min_cases a b Ha Hb) as [[-> L]|[-> _]];
    [exact L | now apply leb_refl].
Qed.

Lemma Math_min_nonneg (a b : float) :
  (0 <=? a) = true -> (0 <=? b) = true -> (0 <=? Math_min a b) = true.
Proof.
  intros Ha Hb.
  destruct (leb_not_nan _ _ Ha) as [_ Na], (leb_not_nan _ _ Hb) as [_ Nb].
  destruct (Math_min_cases a b Na Nb) as [[-> _]|[-> _]]; assumption.
Qed.

(** The edge size of a width that is not below zero is not below zero. *)
Lemma edgeSize_nonneg (w : float) :
  (0 <=? w) = true -> (0 <=? Math_min (w / 3) 8) = true.
Proof.
  intros H. apply Math_min_nonneg; [now apply div_3_nonneg | reflexivity].
Qed.

(** Nothing above 8 is at or below the edge size. *)
Lemma above_edgeSize (v w : float) :
  (8 <? v) = true -> (v <=? Math_min (w / 3) 8) = false.
Proof.
  intros H. destruct (v <=? Math_min (w / 3) 8) eqn:E; [|reflexivity].
  destruct (leb_not_nan _ _ E) as [_ N].
  pose proof (leb_trans _ _ _ E (Math_min_le_r _ _ N)) as T.
  rewrite (ltb_not_leb _ _ H) in T. discriminate.
Qed.

Lemma sub_nan_r (a b : float) : is_nan b = true -> is_nan (a - b) = true.
Proof.
  rewrite !is_nan_key, sub_spec.
  destruct (Prim2SF b); try discriminate.
  intros _. now destruct (Prim2SF a).
Qed.

Lemma getDragPositionType_pointer_at_width (w : float) :
  (0 <=? w) = true -> is_finite w = true ->
  (w <=? Math_min (w / 3) 8) = false ->
  getDragPositionType w w = RIGHT_EDGE.
Proof.
  intros H0 Hf Hw. unfold getDragPositionType. rewrite Hw.
  replace (w - w <=? Math_min (w / 3) 8) with (0 <=? Math_min (w / 3) 8).
  - now rewrite (edgeSize_nonneg w H0).
  - rewrite !leb_spec, (sub_diag w Hf). reflexivity.
Qed.

(** The third of a finite double above zero is below it, rounded as it
    is: the quotient has a smaller exponent, or on the smallest exponent
    a smaller mantissa. *)
Lemma div_3_below (w : float) :
  (0 <? w) = true -> is_finite w = true -> (w / 3 <? w) = true.
Proof.
  intros H0 Hf. pose proof (Prim2SF_valid w) as V.
  rewrite ltb_spec in H0. rewrite ltb_spec, div_spec.
  change (Prim2SF 0) with (S754_zero false) in H0.
  change (Prim2SF 3) with (S754_finite false 6755399441055744 (-51)).
  unfold is_finite, is_infinity in Hf.
  rewrite is_nan_key, eqb_spec, abs_spec in Hf.
  destruct (Prim2SF w) as [s|s| |s m e]; try discriminate H0.
  - destruct s; discriminate.
  - destruct s; [discriminate H0|]. now apply SFdiv_3_below.
Qed.

(** The edge size of a finite width above zero is below the width. *)
Lemma edgeSize_below (w : float) :
  (0 <? w) = true -> is_finite w = true ->
  (w <=? Math_min (w / 3) 8) = false.
Proof.
  intros H0 Hf. pose proof (div_3_below w H0 Hf) as B.
  destruct (leb_not_nan _ _ (ltb_leb _ _ B)) as [N3 Nw].
  destruct (Math_min_cases (w / 3) 8 N3 eq_refl) as [[-> _]|[-> L]].
  - now apply ltb_not_leb.
  - destruct (w <=? 8) eqn:E; [|reflexivity].
    pose proof (leb_trans _ _ _ E L) as T.
    now rewrite (ltb_not_leb _ _ B) in T.
Qed.

(** *** The difference across the centre *)

Section Values.
Local Open Scope Q_scope.

(** A mantissa and an exponent, scaled to an integer. *)
Lemma scaled (m e : Z) :
  (-1074 <= e)%Z ->
  inject_Z m * 2 ^ e * inject_Z (2 ^ 1074) == inject_Z (m * 2 ^ (e + 1074)).
Proof.
  intros H.
  rewrite inject_Z_mult, (Zpower_Qpower 2 (e + 1074)) by lia.
  rewrite (Zpower_Qpower 2 1074) by lia.
  change (inject_Z 2) with 2.
  rewrite (Qpower_plus 2 e 1074) by discriminate.
  ring.
Qed.

Lemma bounded_spec (m : positive) (e : Z) :
  bounded prec emax m e = true ->
  (-1074 <= e)%Z /\ (Zpos m < 2 ^ 53)%Z.
Proof.
  unfold bounded, canonical_mantissa.
  rewrite andb_true_iff, Z.eqb_eq, Z.leb_le, fexp_eq.
  intros [Hc _]. split; [lia|].
  destruct (Z_lt_le_dec (Zpos m) (2 ^ 53)) as [|G]; [assumption|].
  pose proof (digits2_ge m 53 ltac:(lia) G). lia.
Qed.

Lemma is_finite_spec (f : float) :
  is_finite f = true ->
  match Prim2SF f with
  | S754_zero _ | S754_finite _ _ _ => True
  | _ => False
  end.
Proof.
  unfold is_finite, is_infinity, is_nan.
  rewrite !eqb_spec, abs_spec.
  destruct (Prim2SF f) as [s|s| |s m e]; try exact (fun _ => I);
    try destruct s; discriminate.
Qed.

(** The difference of two finite doubles is above 8, rounded as it is,
    when it is above 8 as a real number and the smaller one is above 8. *)
Lemma sub_above_8 (o w : float) :
  (8 <? o)%float = true -> is_finite o = true -> is_finite w = true ->
  value o + 8 < value w -> (8 <? w - o)%float = true.
Proof.
  intros H8 Fo Fw Hv.
  pose proof (Prim2SF_valid o) as Vo. pose proof (Prim2SF_valid w) as Vw.
  apply is_finite_spec in Fo, Fw.
  rewrite ltb_spec in H8. rewrite ltb_spec, sub_spec.
  change (Prim2SF 8)
    with (S754_finite false 4503599627370496 (-49)) in *.
  unfold value in Hv.
  destruct (Prim2SF o) as [so|so| |so mo eo]; try discriminate H8;
    try contradiction.
  destruct so; [discriminate H8|].
  unfold valid_binary in Vo, Vw. cbn [SpecFloat.valid_binary] in Vo.
  destruct (bounded_spec mo eo Vo) as [Eo Mo].
  assert (Ho : (-49 <= eo)%Z).
  { unfold SFltb, SFcompare in H8.
    destruct (Z.compare_spec (-49) eo); try lia; discriminate H8. }
  assert (P0 : 0 < inject_Z (2 ^ 1074)) by reflexivity.
  assert (So := scaled (Zpos mo) eo Eo).
  assert (Hv' : (inject_Z (Zpos mo) * 2 ^ eo + 8) * inject_Z (2 ^ 1074)
                < match Prim2SF w with
                  | S754_finite s m e => inject_Z (cond_Zopp s (Zpos m)) * 2 ^ e
                  | _ => 0
                  end * inject_Z (2 ^ 1074)).
  { apply Qmult_lt_compat_r; assumption. }
  clear Hv.
  assert (L : (inject_Z (Zpos mo) * 2 ^ eo + 8) * inject_Z (2 ^ 1074)
              == inject_Z (Zpos mo * 2 ^ (eo + 1074) + 8 * 2 ^ 1074)).
  { rewrite inject_Z_plus, <- So, (inject_Z_mult 8).
    change (inject_Z 8) with 8. ring. }
  rewrite L in Hv'. clear L So.
  assert (Po : (0 < 2 ^ (eo + 1074))%Z) by (apply Z.pow_pos_nonneg; lia).
  destruct (Prim2SF w) as [sw|sw| |sw mw ew]; try contradiction.
  - exfalso. rewrite Qmult_0_l in Hv'.
    change 0 with (inject_Z 0) in Hv'. rewrite <- Zlt_Qlt in Hv'. nia.
  - cbn [SpecFloat.valid_binary] in Vw.
    destruct (bounded_spec mw ew Vw) as [Ew Mw].
    rewrite (scaled _ ew Ew), <- Zlt_Qlt in Hv'.
    assert (Pw : (0 < 2 ^ (ew + 1074))%Z) by (apply Z.pow_pos_nonneg; lia).
    destruct sw; cbn [cond_Zopp] in Hv'; [exfalso; nia|].
    assert (Hw : (-49 <= ew)%Z).
    { destruct (Z_le_gt_dec (-49) ew) as [|C]; [assumption|]. exfalso.
      assert ((2 ^ (ew + 1074) <= 2 ^ 1024)%Z)
        by (apply Z.pow_le_mono_r; lia).
      assert ((Zpos mw * 2 ^ (ew + 1074) < 2 ^ 53 * 2 ^ 1024)%Z) by nia.
      change (2 ^ 53 * 2 ^ 1024)%Z with (8 * 2 ^ 1074)%Z in H0.
      nia. }
    apply SFsub_above; try assumption.
    set (ez := Z.min ew eo).
    assert (E1 : (2 ^ (ew + 1074)
                  = 2 ^ (ew - ez) * 2 ^ (ez + 49) * 2 ^ 1025)%Z).
    { rewrite <- !Z.pow_add_r by lia. f_equal. lia. }
    assert (E2 : (2 ^ (eo + 1074)
                  = 2 ^ (eo - ez) * 2 ^ (ez + 49) * 2 ^ 1025)%Z).
    { rewrite <- !Z.pow_add_r by lia. f_equal. lia. }
    assert (E3 : (8 * 2 ^ 1074 = 2 ^ 52 * 2 ^ 1025)%Z) by reflexivity.
    rewrite E1, E2, E3 in Hv'.
    assert (HP : (0 < 2 ^ 1025)%Z) by reflexivity.
    set (P := (2 ^ 1025)%Z) in *.
    apply (Z.mul_lt_mono_pos_r P); [exact HP|].
    set (X := (2 ^ (ew - ez))%Z) in *. set (Y := (2 ^ (eo - ez))%Z) in *.
    set (T := (2 ^ (ez + 49))%Z) in *.
    replace ((Zpos mw * X - Zpos mo * Y) * T * P)%Z
      with (Zpos mw * (X * T * P) - Zpos mo * (Y * T * P))%Z by ring.
    lia.
Qed.






End Values.

(** Where the third of the width rounds.  [3.9 / 3] is the double [1.3]
    and [5 / 3] the double [1.6666666666666667], so a pointer at these
    offsets is on the left edge; the offset opposite to [1.3],
    [3.9 - 1.3 = 2.5999999999999996], is in the centre.  On the width
    [1e-323] the edge size rounds up to [5e-324]: at that offset both edge
    tests hold, and the note has no centre. *)
Example classification_where_the_third_rounds :
  (3.9 / 3 = 1.3)%float /\
  getDragPositionType 1.3 3.9 = LEFT_EDGE /\
  getDragPositionType 1.6666666666666667 5 = LEFT_EDGE /\
  (3.9 - 1.3 = 2.5999999999999996)%float /\
  getDragPositionType (3.9 - 1.3) 3.9 = CENTER /\
  (1e-323 / 3 = 5e-324)%float /\
  (1e-323 - 5e-324 <=? Math_min (1e-323 / 3) 8) = true /\
  getDragPositionType 5e-324 1e-323 = LEFT_EDGE /\
  getDragPositionType 1e-323 1e-323 = RIGHT_EDGE.
Proof. repeat split. Qed.

(** C2, as the code has it in doubles.  With
    [edgeSize = Math.min(w / 3, 8)] the classifier returns [LEFT_EDGE] when
    [o <= edgeSize], [RIGHT_EDGE] when [o > edgeSize] and
    [w - o <= edgeSize], and [CENTER] otherwise, the quotient, the
    difference and the comparisons being those of doubles.  At [o = 0] it
    returns [LEFT_EDGE] for every width [w >= 0]; at [o = w] it returns
    [RIGHT_EDGE] for every finite width [w > 0]; for finite [o] and [w],
    every [o] with [8 < o < w - 8] is [CENTER]; and when both edge
    conditions hold the result is [LEFT_EDGE]. *)
Theorem classification_in_doubles (w o : float) :
  let edgeSize := Math_min (w / 3) 8 in
  ((o <=? edgeSize) = true -> getDragPositionType o w = LEFT_EDGE) /\
  ((edgeSize <? o) = true -> (w - o <=? edgeSize) = true ->
   getDragPositionType o w = RIGHT_EDGE) /\
  ((o <=? edgeSize) = false ->
   ~ ((edgeSize <? o) = true /\ (w - o <=? edgeSize) = true) ->
   getDragPositionType o w = CENTER) /\
  ((0 <=? w) = true -> getDragPositionType 0 w = LEFT_EDGE) /\
  ((0 <? w) = true -> is_finite w = true ->
   getDragPositionType w w = RIGHT_EDGE) /\
  ((8 <? o) = true -> is_finite o = true -> is_finite w = true ->
   (value o + 8 < value w)%Q ->
   getDragPositionType o w = CENTER) /\
  ((o <=? edgeSize) = true -> (w - o <=? edgeSize) = true ->
   getDragPositionType o w = LEFT_EDGE).
Proof.
  cbv zeta.
  refine (conj _ (conj _ (conj _ (conj _ (conj _ (conj _ _)))))).
  - intros H. unfold getDragPositionType. now rewrite H.
  - intros H1 H2. unfold getDragPositionType.
    now rewrite (ltb_not_leb _ _ H1), H2.
  - intros H1 H2. unfold getDragPositionType. rewrite H1.
    destruct (w - o <=? Math_min (w / 3) 8) eqn:E; [|reflexivity].
    exfalso. apply H2. split; [|reflexivity].
    destruct (leb_not_nan _ _ E) as [Nd Ne].
    assert (No : is_nan o = false).
    { destruct (is_nan o) eqn:N; [|reflexivity].
      now rewrite (sub_nan_r w o N) in Nd. }
    destruct (Math_min (w / 3) 8 <? o) eqn:L; [reflexivity|].
    now rewrite (leb_total _ _ No Ne L) in H1.
  - intros H. unfold getDragPositionType.
    now rewrite (edgeSize_nonneg w H).
  - intros H Hf. apply getDragPositionType_pointer_at_width.
    + now apply ltb_leb.
    + exact Hf.
    + now apply edgeSize_below.
  - intros H1 Fo Fw Hv. unfold getDragPositionType.
    pose proof (sub_above_8 o w H1 Fo Fw Hv) as H2.
    now rewrite (above_edgeSize o w H1), (above_edgeSize (w - o) w H2).
  - intros H _. unfold getDragPositionType. now rewrite H.
Qed.

(** The classification at work on a note of width 40 (edge size 8), and
    the tie on a note of width 0. *)
Lemma classification_in_doubles_witness :
  getDragPositionType 2 40 = LEFT_EDGE /\
  getDragPositionType 35 40 = RIGHT_EDGE /\
  getDragPositionType 20 40 = CENTER /\
  getDragPositionType 0 40 = LEFT_EDGE /\
  getDragPositionType 40 40 = RIGHT_EDGE /\
  getDragPositionType 9 40 = CENTER /\
  getDragPositionType 0 0 = LEFT_EDGE.
Proof.
  pose proof (classification_in_doubles 40 2) as (L & _).
  pose proof (classification_in_doubles 40 35) as (_ & R & _).
  pose proof (classification_in_doubles 40 20)
    as (_ & _ & C & O & F & _).
  pose proof (classification_in_doubles 40 9)
    as (_ & _ & _ & _ & _ & Mid & _).
  pose proof (classification_in_doubles 0 0)
    as (_ & _ & _ & _ & _ & _ & T).
  refine (conj _ (conj _ (conj _ (conj _ (conj _ (conj _ _)))))).
  - apply L. reflexivity.
  - apply R; reflexivity.
  - apply C; [reflexivity|]. intros [_ H]. vm_compute in H. discriminate.
  - apply O. reflexivity.
  - apply F; reflexivity.
  - apply Mid; reflexivity.
  - apply T; reflexivity.
Defined.

(** Against the wording of C2, which has [RIGHT_EDGE] at [o = w] and
    [LEFT_EDGE] at [o = 0] whatever the width.  On a note of width 0 the
    pointer at [o = w = 0] is classified [LEFT_EDGE], the test made first;
    on a width of -3 the pointer at [o = 0] is classified [RIGHT_EDGE]; on
    an infinite width the pointer at [o = w] is classified [CENTER]. *)
Lemma classification_on_degenerate_widths :
  getDragPositionType 0 0 = LEFT_EDGE /\
  getDragPositionType 0 (-3) = RIGHT_EDGE /\
  getDragPositionType infinity infinity = CENTER /\
  ~ (forall w : float, getDragPositionType w w = RIGHT_EDGE) /\
  ~ (forall w : float, getDragPositionType 0 w = LEFT_EDGE).
Proof.
  split; [reflexivity|]. split; [reflexivity|]. split; [reflexivity|].
  split; intros H.
  - specialize (H 0%float). vm_compute in H. discriminate.
  - specialize (H (-3)%float). vm_compute in H. discriminate.
Qed.

End Doubles.

(** ** The pencil tool *)

Section Pencil.
Import PencilMouseHandler.
Variable env : Env.

(** A move with a drag position in place returns, leaves the handler as it
    was, and asks for the bounds of the stored region. *)
Lemma onPressMoveNote_dragging (s : State) (d : DragPosition.t)
    (e : NoteEvent.t) :
  dragPosition s = Some d ->
  onPressMoveNote env e s =
  mkOutcome (Return tt) s
    [onResizeNote (NoteView.noteId (NoteEvent.target e))
       (spec_dragBounds env (DragPosition.type d) (DragPosition.x d)
          (DragPosition.y d) e)].
Proof.
  intros H. unfold onPressMoveNote, bind, get. cbn. rewrite H.
  unfold spec_dragBounds. destruct (DragPosition.type d); reflexivity.
Qed.

Lemma dispatch_moves_dragging (moves : list NoteEvent.t) (s : State)
    (d : DragPosition.t) :
  dragPosition s = Some d ->
  dispatch (handle env) (map PressMoveNote moves) s =
  map (fun e =>
         mkOutcome (Return tt) s
           [onResizeNote (NoteView.noteId (NoteEvent.target e))
              (spec_dragBounds env (DragPosition.type d) (DragPosition.x d)
                 (DragPosition.y d) e)])
      moves.
Proof.
  intros H. induction moves as [|e moves IH]; [reflexivity|].
  cbn [map dispatch handle]. rewrite (onPressMoveNote_dragging s d e H).
  cbn [final]. now rewrite IH.
Qed.

Lemma Forall2_map_self {A B} (P : A -> B -> Prop) (f : A -> B)
    (l : list A) :
  (forall a, P a (f a)) -> Forall2 P l (map f l).
Proof. intros H. induction l; cbn; constructor; auto. Qed.

(** The outcomes of the moves of a drag, the pointer-down set aside. *)
Lemma moves_of_drag (s : State) (e0 : NoteEvent.t)
    (moves : list NoteEvent.t) :
  tl (dispatch (handle env) (drag e0 moves) s) =
  map (fun e =>
         mkOutcome (Return tt) (final (onMouseDownNote e0 s))
           [onResizeNote (NoteView.noteId (NoteEvent.target e))
              (spec_dragBounds env
                 (getDragPositionType (NoteEvent.localX e0)
                    (NoteView.width (NoteEvent.target e0)))
                 (NoteEvent.localX e0) (NoteEvent.localY e0) e)])
      moves.
Proof.
  unfold drag. cbn [dispatch handle tl].
  exact (dispatch_moves_dragging moves (final (onMouseDownNote e0 s))
           (DragPosition.mk (NoteEvent.localX e0) (NoteEvent.localY e0)
              (getDragPositionType (NoteEvent.localX e0)
                 (NoteView.width (NoteEvent.target e0))))
           eq_refl).
Qed.

(** C1.  A drag on a note, delivered to the handler: the pointer-down
    stores the region computed from its own note-local X and the width of
    the note; every move of the drag then returns, leaves the stored drag
    position as the pointer-down set it, and asks for the bounds of that
    stored region.  The region a move would get from its own position
    ([localX] of the move and the width of its target) appears nowhere. *)
Theorem drag_region_captured_once (s : State) (e0 : NoteEvent.t)
    (moves : list NoteEvent.t) :
  let region :=
    getDragPositionType (NoteEvent.localX e0)
      (NoteView.width (NoteEvent.target e0)) in
  let held :=
    mkState
      (Some (DragPosition.mk (NoteEvent.localX e0) (NoteEvent.localY e0)
               region))
      (cursor s) in
  dispatch (handle env) (drag e0 moves) s =
  mkOutcome (Return tt) held [] ::
  map (fun e =>
         mkOutcome (Return tt) held
           [onResizeNote (NoteView.noteId (NoteEvent.target e))
              (spec_dragBounds env region (NoteEvent.localX e0)
                 (NoteEvent.localY e0) e)])
      moves.
Proof.
  cbv zeta. pose proof (moves_of_drag s e0 moves) as H.
  unfold drag in *. cbn [dispatch handle tl] in *. f_equal. exact H.
Qed.

(** C10.  Through a drag whose pointer-down was classified [CENTER], every
    move asks for one resize, with the width and height of the note as the
    move finds it and with [x] and [y] the rounded pointer position less
    the offsets taken at pointer-down.  No handler of the pencil tool ever
    calls [onMoveNotes]. *)
Theorem center_drag_keeps_size :
  (forall (s : State) (e0 : NoteEvent.t) (moves : list NoteEvent.t),
     getDragPositionType (NoteEvent.localX e0)
       (NoteView.width (NoteEvent.target e0)) = CENTER ->
     Forall2
       (fun e o =>
          let note := NoteEvent.target e in
          let p :=
            globalToLocal env (NoteEvent.stageX e) (NoteEvent.stageY e) in
          exists b,
            calls o = [onResizeNote (NoteView.noteId note) b] /\
            Rect.width b = NoteView.width note /\
            Rect.height b = NoteView.height note /\
            Rect.x b = roundX env (Point.x p - NoteEvent.localX e0) /\
            Rect.y b = roundY env (Point.y p - NoteEvent.localY e0))
       moves (tl (dispatch (handle env) (drag e0 moves) s))) /\
  (forall (ev : Event) (s : State),
     existsb isMoveNotes (calls (handle env ev s)) = false).
Proof.
  split.
  - intros s e0 moves H. cbv zeta. rewrite moves_of_drag, H.
    apply Forall2_map_self. intros e. eexists.
    split; [reflexivity|]. cbn. repeat split.
  - intros [e|e|e|e] s; cbn [handle].
    + reflexivity.
    + unfold onPressMoveNote, bind, get. cbn.
      destruct (dragPosition s); reflexivity.
    + unfold onMouseDown. destruct (target e); reflexivity.
    + unfold onMouseMove, setCursor, bind, get.
      destruct (getObjectUnderPoint env _ _) as [obj|]; cbn.
      * destruct (getDragPositionType _ _); cbn;
          destruct (String.eqb (cursor s) _); reflexivity.
      * destruct (String.eqb (cursor s) _); reflexivity.
Qed.

(** C8.  A pointer-down on the container returns, leaves the handler as
    it was, and calls [onCreateNote] once, at the floor-quantized
    container-local pointer position and with width [unitX].  On the grid
    of 10 by 12 a pointer-down at local (23, 5) asks for
    [{x: 20, y: 0, width: 10}]. *)
Theorem onMouseDown_creates_note :
  (forall (s : State) (e : MouseEvent),
     target e = TargetContainer ->
     let p := globalToLocal env (stageX e) (stageY e) in
     onMouseDown env e s =
     mkOutcome (Return tt) s
       [onCreateNote
          (NewNote.mk (floorX env (Point.x p)) (floorY env (Point.y p))
             (unitX env))]) /\
  (forall (s : State) (sel : option Rect.t),
     onMouseDown (gridEnv sel) (mkMouseEvent 23 5 TargetContainer) s =
     mkOutcome (Return tt) s [onCreateNote (NewNote.mk 20 0 10)]).
Proof.
  split.
  - intros s e H. unfold onMouseDown. now rewrite H.
  - reflexivity.
Qed.

End Pencil.

(** ** The selection tool *)

Section Selection.
Import SelectionMouseHandler.
Variable env : Env.

(** The filter of [onMouseUp] touches neither the handler nor the
    listener.  It tests the notes against what [selection] is bound to, and
    throws at the first note when [selection] is not bound. *)
Lemma filterM_inSelection (notes : list Note.t) (s : State) :
  filterM (inSelection env) notes s =
  match selection env with
  | Some r =>
      mkOutcome
        (Return (filter (fun n => containsPoint env r (Note.point n)) notes))
        s []
  | None =>
      match notes with
      | [] => mkOutcome (Return []) s []
      | _ :: _ => mkOutcome (Throw ReferenceError) s []
      end
  end.
Proof.
  unfold inSelection. destruct (selection env) as [r|].
  - revert s. induction notes as [|n notes IH]; intros s; [reflexivity|].
    cbn [filterM filter]. unfold bind, ret at 1. cbn [completion final calls].
    rewrite IH. cbn.
    destruct (containsPoint env r (Note.point n)); reflexivity.
  - destruct notes; reflexivity.
Qed.

Lemma onMouseUp_unfixed (notes : list Note.t) (e : MouseEvent) (s : State) :
  SelectionView.fixed (selectionView s) = false ->
  onMouseUp env notes e s =
  let s1 := update_selectionView (SelectionView.set_fixed true) s in
  let selected r :=
    filter (fun n => containsPoint env r (Note.point n)) notes in
  match selection env, notes with
  | Some r, _ =>
      mkOutcome (Return tt)
        (set_isMouseDown false (set_selectedNotes (selected r) s1))
        [onSelectNotes (selected r)]
  | None, [] =>
      mkOutcome (Return tt) (set_isMouseDown false (set_selectedNotes [] s1))
        [onSelectNotes []]
  | None, _ :: _ => mkOutcome (Throw ReferenceError) s1 []
  end.
Proof.
  intros H. unfold onMouseUp, bind. cbn. rewrite H. cbn.
  rewrite filterM_inSelection.
  destruct (selection env) as [r|]; [reflexivity|].
  destruct notes; reflexivity.
Qed.

Lemma onMouseUp_fixed (notes : list Note.t) (e : MouseEvent) (s : State) :
  SelectionView.fixed (selectionView s) = true ->
  onMouseUp env notes e s =
  mkOutcome (Return tt) (set_isMouseDown false s)
    (if isMouseMoved s then [] else [onClickNotes (selectedNotes s) e]).
Proof.
  intros H. unfold onMouseUp, bind. cbn. rewrite H. cbn.
  destruct (isMouseMoved s); reflexivity.
Qed.

Lemma onMouseMove_idle (e : MouseEvent) (s : State) :
  isMouseDown s = false -> onMouseMove env e s = mkOutcome (Return tt) s [].
Proof.
  intros H. unfold onMouseMove, bind, get. cbn. now rewrite H.
Qed.

Lemma onMouseMove_fixed (e : MouseEvent) (s : State) (off : Point.t) :
  isMouseDown s = true ->
  SelectionView.fixed (selectionView s) = true ->
  dragOffset s = Some off ->
  let loc := globalToLocal env (stageX e) (stageY e) in
  let qx := roundX env (Point.x loc - Point.x off) in
  let qy := roundY env (Point.y loc - Point.y off) in
  let s1 := update_selectionView (SelectionView.set_visible true) s in
  onMouseMove env e s =
  mkOutcome (Return tt)
    (set_selectionRect
       (Rect.set_y qy (Rect.set_x qx (selectionRect s1))) s1)
    [onMoveNotes (selectedNotes s)
       (Point.mk (qx - Rect.x (selectionRect s))
                 (qy - Rect.y (selectionRect s)))].
Proof.
  intros Hd Hf Ho. unfold onMouseMove, bind. cbn.
  rewrite Hd. cbn. rewrite Hf. cbn. rewrite Ho. reflexivity.
Qed.

Lemma handle_wellFormed (ev : Event) (s : State) :
  wellFormed s -> wellFormed (final (handle env ev s)).
Proof.
  intros [Hm Hd]. destruct ev as [e|e|notes e]; cbn [handle].
  - unfold onMouseDown, bind. cbn.
    destruct (containsPoint env _ _); cbn;
      (split; [exact Hm | intros _; do 2 eexists; split; reflexivity]).
  - destruct (isMouseDown s) eqn:Ed.
    + destruct (Hd eq_refl) as (p & off & Hs & Ho).
      unfold onMouseMove, bind. cbn. rewrite Ed. cbn.
      destruct (SelectionView.fixed (selectionView s)); cbn.
      * rewrite Ho. cbn.
        split; [exact Hm | intros _; exists p, off; split; assumption].
      * rewrite Hs. cbn.
        split; [exact Hm | intros _; exists p, off; split; assumption].
    + rewrite (onMouseMove_idle e s Ed). cbn. split; [exact Hm|].
      intros H. congruence.
  - destruct (SelectionView.fixed (selectionView s)) eqn:Ef.
    + rewrite (onMouseUp_fixed notes e s Ef).
      split; [exact Hm | intros H; cbv in H; discriminate].
    + rewrite (onMouseUp_unfixed notes e s Ef). cbv zeta.
      destruct (selection env) as [r|]; [|destruct notes].
      * split; [exact Hm | intros H; cbv in H; discriminate].
      * split; [exact Hm | intros H; cbv in H; discriminate].
      * split; [exact Hm | exact Hd].
Qed.

Lemma reachable_wellFormed (s : State) : reachable env s -> wellFormed s.
Proof.
  induction 1 as [v|s ev _ IH].
  - split; [reflexivity | discriminate].
  - now apply handle_wellFormed.
Qed.

Lemma reachable_dispatch (evs : list Event) (s : State) :
  reachable env s -> reachable env (lastState s (dispatch (handle env) evs s)).
Proof.
  revert s. induction evs as [|ev evs IH]; intros s H; [exact H|].
  cbn. apply IH. now constructor.
Qed.

(** The drag offset a pointer-down records: the down point less the origin
    of the rectangle as the pointer-down leaves it. *)
Lemma onMouseDown_records_offset (s : State) (e : MouseEvent) :
  let p := globalToLocal env (stageX e) (stageY e) in
  let s' := final (onMouseDown env e s) in
  isMouseDown s' = true /\
  start s' = Some p /\
  dragOffset s' =
  Some (Point.mk (Point.x p - Rect.x (selectionRect s'))
                 (Point.y p - Rect.y (selectionRect s'))).
Proof.
  cbv zeta. unfold onMouseDown, bind. cbn.
  destruct (containsPoint env _ _); cbn; repeat split.
Qed.

(** C9.  A pointer-down outside the selection rectangle returns with the
    rectangle unfixed, invisible and collapsed to the down point, and
    calls [onSelectNotes] once with no note.  A pointer-down inside the
    rectangle returns with the selection view and the selected notes as
    they were and calls nothing. *)
Theorem onMouseDown_outside_resets (s : State) (e : MouseEvent) :
  let p := globalToLocal env (stageX e) (stageY e) in
  let o := onMouseDown env e s in
  (containsPoint env (selectionRect s) p = false ->
   completion o = Return tt /\
   SelectionView.fixed (selectionView (final o)) = false /\
   SelectionView.visible (selectionView (final o)) = false /\
   selectionRect (final o) = Rect.mk (Point.x p) (Point.y p) 0 0 /\
   calls o = [onSelectNotes []]) /\
  (containsPoint env (selectionRect s) p = true ->
   completion o = Return tt /\
   selectionView (final o) = selectionView s /\
   selectedNotes (final o) = selectedNotes s /\
   calls o = []).
Proof.
  cbv zeta.
  unfold onMouseDown, bind. cbn.
  change (selectionRect (set_start _ (set_isMouseDown true s)))
    with (selectionRect s).
  split; intros H; rewrite H; cbn; repeat split.
Qed.

End Selection.

(** ** Resizes and moves, and the rounding of doubles *)

Section Rounding.
Import Floats.
Variable env : Env.



End Rounding.

(** ** Runs on the sample grid *)

(** The specification's regression test.  The pointer goes down 2 pixels
    into the note at 100 of width 40, a left-edge grab; it then moves to
    130, where its own position would classify as [CENTER]; the move is
    still a left-edge resize, to [{x: 130, width: 10}]. *)
Example left_edge_drag_past_midpoint :
  let e0 := noteEventAt 102 3 sampleNoteView in
  let e1 := noteEventAt 130 3 sampleNoteView in
  getDragPositionType (NoteEvent.localX e0) 40 = LEFT_EDGE /\
  getDragPositionType (NoteEvent.localX e1) 40 = CENTER /\
  map calls
    (dispatch (PencilMouseHandler.handle (gridEnv None))
       (PencilMouseHandler.drag e0 [e1])
       (PencilMouseHandler.constructor "default")) =
  [[]; [onResizeNote 1 (Rect.mk 130 0 10 12)]].
Proof. repeat split. Qed.

Lemma center_drag_keeps_size_witness :
  let e0 := noteEventAt 120 3 sampleNoteView in
  let moves :=
    [noteEventAt 131 17 sampleNoteView; noteEventAt 158 40 sampleNoteView] in
  getDragPositionType (NoteEvent.localX e0)
    (NoteView.width (NoteEvent.target e0)) = CENTER /\
  Forall2
    (fun e o =>
       let note := NoteEvent.target e in
       let p :=
         globalToLocal (gridEnv None) (NoteEvent.stageX e)
           (NoteEvent.stageY e) in
       exists b,
         calls o = [onResizeNote (NoteView.noteId note) b] /\
         Rect.width b = NoteView.width note /\
         Rect.height b = NoteView.height note /\
         Rect.x b =
           roundX (gridEnv None) (Point.x p - NoteEvent.localX e0) /\
         Rect.y b =
           roundY (gridEnv None) (Point.y p - NoteEvent.localY e0))
    moves
    (tl (dispatch (PencilMouseHandler.handle (gridEnv None))
           (PencilMouseHandler.drag e0 moves)
           (PencilMouseHandler.constructor "default"))).
Proof.
  cbv zeta. split; [reflexivity|].
  apply (proj1 (center_drag_keeps_size (gridEnv None))). reflexivity.
Defined.

Lemma onMouseDown_creates_note_witness :
  target (stageEventAt 23 5) = TargetContainer /\
  PencilMouseHandler.onMouseDown (gridEnv None) (stageEventAt 23 5)
    (PencilMouseHandler.constructor "default") =
  mkOutcome (Return tt) (PencilMouseHandler.constructor "default")
    [onCreateNote (NewNote.mk 20 0 10)].
Proof.
  split; [reflexivity|].
  apply (proj1 (onMouseDown_creates_note (gridEnv None))). reflexivity.
Defined.

Lemma onMouseDown_outside_resets_witness :
  let env := gridEnv None in
  let s :=
    lastState (SelectionMouseHandler.constructor emptySelectionView)
      (dispatch (SelectionMouseHandler.handle env) (marquee [])
         (SelectionMouseHandler.constructor emptySelectionView)) in
  let outside := SelectionMouseHandler.onMouseDown env (stageEventAt 70 50) s in
  let inside := SelectionMouseHandler.onMouseDown env (stageEventAt 20 20) s in
  SelectionMouseHandler.selectionRect s = Rect.mk 10 0 40 36 /\
  SelectionView.fixed (SelectionMouseHandler.selectionView s) = true /\
  (SelectionView.fixed (SelectionMouseHandler.selectionView (final outside))
     = false /\
   SelectionMouseHandler.selectionRect (final outside) = Rect.mk 70 50 0 0 /\
   calls outside = [onSelectNotes []]) /\
  (SelectionMouseHandler.selectionView (final inside)
     = SelectionMouseHandler.selectionView s /\
   calls inside = []).
Proof.
  cbv zeta.
  pose proof
    (onMouseDown_outside_resets (gridEnv None)
       (lastState (SelectionMouseHandler.constructor emptySelectionView)
          (dispatch (SelectionMouseHandler.handle (gridEnv None)) (marquee [])
             (SelectionMouseHandler.constructor emptySelectionView)))
       (stageEventAt 70 50)) as [Hout _].
  pose proof
    (onMouseDown_outside_resets (gridEnv None)
       (lastState (SelectionMouseHandler.constructor emptySelectionView)
          (dispatch (SelectionMouseHandler.handle (gridEnv None)) (marquee [])
             (SelectionMouseHandler.constructor emptySelectionView)))
       (stageEventAt 20 20)) as [_ Hin].
  cbv zeta in Hout, Hin.
  destruct (Hout eq_refl) as (_ & Hf & _ & Hr & Hc).
  destruct (Hin eq_refl) as (_ & Hv & _ & Hc').
  split; [reflexivity|]. split; [reflexivity|].
  split; [split; [exact Hf | split; [exact Hr | exact Hc]]|].
  split; [exact Hv | exact Hc'].
Defined.

(** ** Resizes and moves on the sample grid, in the model and in doubles *)

Section RoundingRuns.
Import Floats.





End RoundingRuns.

(** ** Where the handlers part from the specification *)

Section Departures.
Import SelectionMouseHandler.

(** C5.  A marquee from (5, 5) to (47, 30) ends with the rectangle
    [{x: 10, y: 0, width: 40, height: 36}], which contains the sample note
    at (20, 12).  The release does not test the note against that
    rectangle but against [selection].  With [selection] unbound the
    release throws a [ReferenceError] once the rectangle is fixed, and
    [onSelectNotes] is not called; with [selection] bound to a rectangle
    elsewhere the release reports an empty selection. *)
Theorem marquee_up_tests_selection_identifier :
  let s0 := constructor emptySelectionView in
  let unbound :=
    dispatch (handle (gridEnv None)) (marquee [sampleNote]) s0 in
  let elsewhere :=
    dispatch (handle (gridEnv (Some (Rect.mk 200 200 10 12))))
      (marquee [sampleNote]) s0 in
  rectContainsPoint (Rect.mk 10 0 40 36) (Note.point sampleNote) = true /\
  selectionRect (lastState s0 unbound) = Rect.mk 10 0 40 36 /\
  SelectionView.fixed (selectionView (lastState s0 unbound)) = true /\
  map completion unbound = [Return tt; Return tt; Throw ReferenceError] /\
  map calls unbound = [[onSelectNotes []]; []; []] /\
  selectionRect (lastState s0 elsewhere) = Rect.mk 10 0 40 36 /\
  map calls elsewhere = [[onSelectNotes []]; []; [onSelectNotes []]].
Proof. cbv zeta. repeat split. Qed.

(** Whatever [selection] is bound to, some marquee has its release report
    something else than the notes within the rectangle, or nothing. *)
Lemma marquee_up_differs_for_every_binding (sel : option Rect.t) :
  exists (gesture : list Event) (notes : list Note.t) (e : MouseEvent),
    let s := lastState (constructor emptySelectionView)
               (dispatch (handle (gridEnv sel)) gesture
                  (constructor emptySelectionView)) in
    SelectionView.fixed (selectionView s) = false /\
    calls (onMouseUp (gridEnv sel) notes e s) <>
    [onSelectNotes
       (filter (fun n => rectContainsPoint (selectionRect s) (Note.point n))
          notes)].
Proof.
  destruct sel as [r|].
  - destruct (rectContainsPoint r (Note.point sampleNote)) eqn:E.
    + exists [MouseDown (stageEventAt 205 205);
              MouseMove (stageEventAt 247 230)],
        [sampleNote], (stageEventAt 247 230).
      cbv zeta. split; [reflexivity|].
      rewrite onMouseUp_unfixed by reflexivity. cbn [selection gridEnv].
      cbn [filter calls].
      change (containsPoint (gridEnv (Some r))) with rectContainsPoint.
      rewrite E. vm_compute. discriminate.
    + exists [MouseDown (stageEventAt 5 5); MouseMove (stageEventAt 47 30)],
        [sampleNote], (stageEventAt 47 30).
      cbv zeta. split; [reflexivity|].
      rewrite onMouseUp_unfixed by reflexivity. cbn [selection gridEnv].
      cbn [filter calls].
      change (containsPoint (gridEnv (Some r))) with rectContainsPoint.
      rewrite E. vm_compute. discriminate.
  - exists [MouseDown (stageEventAt 5 5); MouseMove (stageEventAt 47 30)],
      [sampleNote], (stageEventAt 47 30).
    cbv zeta. split; [reflexivity|]. vm_compute. discriminate.
Qed.

(** Nothing sets [isMouseMoved]: on a fixed rectangle a release clicks,
    whatever came before it. *)
Lemma onMouseUp_fixed_clicks (env : Env) (notes : list Note.t)
    (e : MouseEvent) (s : State) :
  reachable env s ->
  SelectionView.fixed (selectionView s) = true ->
  calls (onMouseUp env notes e s) = [onClickNotes (selectedNotes s) e].
Proof.
  intros Hr Hf. destruct (reachable_wellFormed env s Hr) as [Hm _].
  rewrite (onMouseUp_fixed env notes e s Hf), Hm. reflexivity.
Qed.

(** C6.  On the rectangle a marquee has fixed, a press inside it followed
    by a release calls [onClickNotes] with the selected notes and the
    event of the release, and nothing else.  A press, a move and a release
    call [onMoveNotes] at the move and then [onClickNotes] at the release
    all the same: the release reads [isMouseMoved], which no handler
    sets.  Both runs are given on an empty stage, whatever [selection] is
    bound to, and with the sample note selected. *)
Theorem click_after_move :
  (forall sel : option Rect.t,
     let s0 := constructor emptySelectionView in
     map calls
       (dispatch (handle (gridEnv sel)) (marquee [] ++ pressRelease []) s0) =
     [[onSelectNotes []]; []; [onSelectNotes []];
      []; [onClickNotes [] (stageEventAt 20 20)]] /\
     map calls
       (dispatch (handle (gridEnv sel)) (marquee [] ++ pressMoveRelease [])
          s0) =
     [[onSelectNotes []]; []; [onSelectNotes []];
      []; [onMoveNotes [] (Point.mk 10 0)];
      [onClickNotes [] (stageEventAt 31 20)]]) /\
  (let env := gridEnv (Some (Rect.mk 10 0 40 36)) in
   let s0 := constructor emptySelectionView in
   map calls
     (dispatch (handle env)
        (marquee [sampleNote] ++ pressMoveRelease [sampleNote]) s0) =
   [[onSelectNotes []]; []; [onSelectNotes [sampleNote]];
    []; [onMoveNotes [sampleNote] (Point.mk 10 0)];
    [onClickNotes [sampleNote] (stageEventAt 31 20)]]).
Proof.
  split; [|reflexivity].
  intros sel. cbv zeta. split; reflexivity.
Qed.

(** C7.  A move with the pointer not held is a no-op of the selection
    tool ([onMouseMove_idle]); a release is not.  On a handler just
    constructed, with no pointer-down before it, a release fixes the
    rectangle and calls [onSelectNotes]; a second release calls
    [onClickNotes].  A press-move of the pencil tool on a handler that has
    seen no pointer-down on a note throws a [TypeError]. *)
Theorem release_without_press_acts (env : Env) (e : MouseEvent) :
  let s0 := constructor emptySelectionView in
  let s1 :=
    constructor (SelectionView.set_fixed true emptySelectionView) in
  isMouseDown s0 = false /\
  onMouseMove env e s0 = mkOutcome (Return tt) s0 [] /\
  onMouseUp env [] e s0 = mkOutcome (Return tt) s1 [onSelectNotes []] /\
  isMouseDown s1 = false /\
  onMouseUp env [] e s1 = mkOutcome (Return tt) s1 [onClickNotes [] e] /\
  (forall (c : string) (ne : NoteEvent.t),
     PencilMouseHandler.onPressMoveNote env ne
       (PencilMouseHandler.constructor c) =
     mkOutcome (Throw TypeError) (PencilMouseHandler.constructor c) []).
Proof.
  cbv zeta. repeat split.
Qed.

End Departures.

(** * Further properties *)

(** Comparisons between rational constants. *)
Ltac qcompare :=
  vm_compute;
  first [ reflexivity | discriminate | intro; discriminate ].

(** ** More on the classifier *)

Section ClassifierShape.





End ClassifierShape.

(** ** More on the pencil tool *)

Section PencilSession.
Import PencilMouseHandler.
Variable env : Env.

Lemma setCursor_run (c : string) (s : State) :
  setCursor c s = mkOutcome (Return tt) (mkState (dragPosition s) c) [].
Proof.
  unfold setCursor, bind, get. cbn.
  destruct (String.eqb (cursor s) c) eqn:E; cbn; [|reflexivity].
  apply String.eqb_eq in E. subst c. now destruct s.
Qed.

(** What the hover handler finds under the pointer. *)
Lemma onMouseMove_run (e : MouseEvent) (s : State) :
  let cpos := globalToLocal env (stageX e) (stageY e) in
  let region :=
    option_map
      (fun obj =>
         getDragPositionType
           (Point.x (noteGlobalToLocal env obj (stageX e) (stageY e)))
           (NoteView.width obj))
      (getObjectUnderPoint env (Point.x cpos) (Point.y cpos)) in
  onMouseMove env e s =
  mkOutcome (Return tt) (mkState (dragPosition s) (cursorOver region)) [].
Proof.
  cbv zeta. unfold onMouseMove.
  destruct (getObjectUnderPoint env _ _) as [obj|]; cbn [option_map].
  - destruct (getDragPositionType _ _); apply setCursor_run.
  - apply setCursor_run.
Qed.

(** X4.  Hovering never touches the drag in progress and never calls the
    listener: the hover handler returns with the stored drag position as
    it was, with no call made, and with the cursor chosen from what lies
    under the pointer (a resize cursor on either edge of a note, a move
    cursor on its centre, the default cursor off the notes), whatever the
    cursor was before.  Hovering again at the same place changes
    nothing. *)
Theorem hover_only_sets_cursor (e : MouseEvent) (s : State) :
  let cpos := globalToLocal env (stageX e) (stageY e) in
  let region :=
    option_map
      (fun obj =>
         getDragPositionType
           (Point.x (noteGlobalToLocal env obj (stageX e) (stageY e)))
           (NoteView.width obj))
      (getObjectUnderPoint env (Point.x cpos) (Point.y cpos)) in
  let o := onMouseMove env e s in
  completion o = Return tt /\
  calls o = [] /\
  dragPosition (final o) = dragPosition s /\
  cursor (final o) = cursorOver region /\
  onMouseMove env e (final o) = mkOutcome (Return tt) (final o) [].
Proof.
  cbv zeta. rewrite (onMouseMove_run e s). cbn [completion calls final].
  repeat split. now rewrite onMouseMove_run.
Qed.

(** Every handler but the pointer-down on a note returns and keeps the
    stored drag position, once there is one. *)
Lemma handle_keeps_dragPosition (ev : Event) (s : State)
    (d : DragPosition.t) :
  isMouseDownNote ev = false ->
  dragPosition s = Some d ->
  completion (handle env ev s) = Return tt /\
  dragPosition (final (handle env ev s)) = Some d.
Proof.
  intros Hev Hd. destruct ev as [e|e|e|e]; cbn [handle].
  - discriminate.
  - now rewrite (onPressMoveNote_dragging env s d e Hd).
  - unfold onMouseDown. destruct (target e); cbn; auto.
  - rewrite (onMouseMove_run e s). cbn. auto.
Qed.

(** X5.  Once a pointer-down on a note has stored a drag position, nothing
    but another pointer-down on a note replaces it: through any run of
    press-moves, hovers and pointer-downs on the stage every handler
    returns, the stored drag position stays, every press-move asks for the
    one resize of the stored region, and every hover calls nothing.  In
    particular a press-move never throws from then on. *)
Theorem drag_position_persists (evs : list Event) (s : State)
    (d : DragPosition.t) :
  dragPosition s = Some d ->
  forallb (fun ev => negb (isMouseDownNote ev)) evs = true ->
  Forall2
    (fun ev o =>
       completion o = Return tt /\
       dragPosition (final o) = Some d /\
       (forall e, ev = PressMoveNote e ->
          calls o =
          [onResizeNote (NoteView.noteId (NoteEvent.target e))
             (spec_dragBounds env (DragPosition.type d) (DragPosition.x d)
                (DragPosition.y d) e)]) /\
       (forall e, ev = MouseMove e -> calls o = []))
    evs (dispatch (handle env) evs s).
Proof.
  revert s. induction evs as [|ev evs IH]; intros s Hd Hevs; cbn.
  - constructor.
  - cbn in Hevs. apply andb_true_iff in Hevs as [Hev Hevs].
    apply negb_true_iff in Hev.
    destruct (handle_keeps_dragPosition ev s d Hev Hd) as [Hc Hk].
    constructor; [|now apply IH].
    split; [exact Hc|]. split; [exact Hk|]. split.
    + intros e ->. cbn [handle].
      now rewrite (onPressMoveNote_dragging env s d e Hd).
    + intros e ->. cbn [handle]. now rewrite (onMouseMove_run e s).
Qed.

End PencilSession.

Lemma hover_only_sets_cursor_witness :
  let e := stageEventAt 131 4 in
  let env :=
    mkEnv (gridQuantizer 10 12) (fun x y => Point.mk x y)
      (fun _ _ => Some sampleNoteView)
      (fun n x y => Point.mk (x - NoteView.x n) (y - NoteView.y n))
      rectContainsPoint rectFromPoints None in
  let s := PencilMouseHandler.mkState None "default" in
  PencilMouseHandler.cursor (final (PencilMouseHandler.onMouseMove env e s))
  = "move"%string.
Proof.
  cbv zeta.
  exact (proj1 (proj2 (proj2 (proj2
           (hover_only_sets_cursor
              (mkEnv (gridQuantizer 10 12) (fun x y => Point.mk x y)
                 (fun _ _ => Some sampleNoteView)
                 (fun n x y => Point.mk (x - NoteView.x n) (y - NoteView.y n))
                 rectContainsPoint rectFromPoints None)
              (stageEventAt 131 4)
              (PencilMouseHandler.mkState None "default")))))).
Defined.

Lemma drag_position_persists_witness :
  let env := gridEnv None in
  let d := DragPosition.mk 2 3 LEFT_EDGE in
  let evs :=
    [ PencilMouseHandler.MouseMove (stageEventAt 110 3);
      PencilMouseHandler.PressMoveNote (noteEventAt 130 3 sampleNoteView);
      PencilMouseHandler.MouseDown (stageEventAt 300 40);
      PencilMouseHandler.PressMoveNote (noteEventAt 151 3 sampleNoteView) ] in
  Forall2
    (fun ev o =>
       completion o = Return tt /\
       PencilMouseHandler.dragPosition (final o) = Some d)
    evs
    (dispatch (PencilMouseHandler.handle env) evs
       (PencilMouseHandler.mkState (Some d) "default")).
Proof.
  cbv zeta. eapply Forall2_impl;
    [|exact (drag_position_persists (gridEnv None)
               [ PencilMouseHandler.MouseMove (stageEventAt 110 3);
                 PencilMouseHandler.PressMoveNote
                   (noteEventAt 130 3 sampleNoteView);
                 PencilMouseHandler.MouseDown (stageEventAt 300 40);
                 PencilMouseHandler.PressMoveNote
                   (noteEventAt 151 3 sampleNoteView) ]
               (PencilMouseHandler.mkState
                  (Some (DragPosition.mk 2 3 LEFT_EDGE)) "default")
               (DragPosition.mk 2 3 LEFT_EDGE) eq_refl eq_refl)].
  intros ev o (Hc & Hk & _). split; assumption.
Defined.

(** ** More on the selection tool *)

Section SelectionLifecycle.
Import SelectionMouseHandler.
Variable env : Env.

Lemma onMouseDown_returns (e : MouseEvent) (s : State) :
  completion (onMouseDown env e s) = Return tt.
Proof.
  unfold onMouseDown, bind. cbn.
  destruct (containsPoint env _ _); reflexivity.
Qed.

Lemma onMouseDown_outside (e : MouseEvent) (s : State) :
  containsPoint env (selectionRect s)
    (globalToLocal env (stageX e) (stageY e)) = false ->
  SelectionView.fixed (selectionView (final (onMouseDown env e s))) = false /\
  calls (onMouseDown env e s) = [onSelectNotes []].
Proof.
  intros H. unfold onMouseDown, bind. cbn.
  change (selectionRect (set_start _ (set_isMouseDown true s)))
    with (selectionRect s).
  rewrite H. cbn. split; reflexivity.
Qed.

Lemma onMouseDown_inside (e : MouseEvent) (s : State) :
  containsPoint env (selectionRect s)
    (globalToLocal env (stageX e) (stageY e)) = true ->
  selectionView (final (onMouseDown env e s)) = selectionView s /\
  selectedNotes (final (onMouseDown env e s)) = selectedNotes s /\
  calls (onMouseDown env e s) = [].
Proof.
  intros H. unfold onMouseDown, bind. cbn.
  change (selectionRect (set_start _ (set_isMouseDown true s)))
    with (selectionRect s).
  rewrite H. cbn. repeat split.
Qed.

Lemma onMouseMove_marquee (e : MouseEvent) (s : State) (p : Point.t) :
  isMouseDown s = true ->
  SelectionView.fixed (selectionView s) = false ->
  start s = Some p ->
  let loc := globalToLocal env (stageX e) (stageY e) in
  let rect := fromPoints env p loc in
  let x := roundX env (Rect.x rect) in
  let y := roundY env (Rect.y rect) in
  let s1 := update_selectionView (SelectionView.set_visible true) s in
  onMouseMove env e s =
  mkOutcome (Return tt)
    (set_selectionRect
       (Rect.mk x y
          (orElse (roundX env (Rect.x rect + Rect.width rect) - x)
             (unitX env))
          (orElse (roundY env (Rect.y rect + Rect.height rect) - y)
             (unitY env)))
       s1)
    [].
Proof.
  intros Hd Hf Hs. unfold onMouseMove, bind. cbn.
  rewrite Hd. cbn. rewrite Hf. cbn. rewrite Hs. reflexivity.
Qed.

Lemma orElse_nonzero (a b : Q) : ~ b == 0 -> ~ orElse a b == 0.
Proof.
  intros Hb. unfold orElse. destruct (Qeq_bool a 0) eqn:E; [exact Hb|].
  intros H. apply Qeq_bool_iff in H. congruence.
Qed.

(** X7.  While a marquee is drawn, a move returns without calling the
    listener and without touching the selected notes; it shows the
    rectangle, leaves it unfixed, and puts its origin at the rounded origin
    of the rectangle spanned by the down point and the pointer.  The new
    rectangle owes nothing to the one before it, and with non-zero grid
    units neither its width nor its height is zero. *)
Theorem marquee_move_spans_rounded_points (e : MouseEvent) (s : State)
    (p : Point.t) :
  isMouseDown s = true ->
  SelectionView.fixed (selectionView s) = false ->
  start s = Some p ->
  let loc := globalToLocal env (stageX e) (stageY e) in
  let rect := fromPoints env p loc in
  let o := onMouseMove env e s in
  completion o = Return tt /\
  calls o = [] /\
  selectedNotes (final o) = selectedNotes s /\
  SelectionView.visible (selectionView (final o)) = true /\
  SelectionView.fixed (selectionView (final o)) = false /\
  Rect.x (selectionRect (final o)) = roundX env (Rect.x rect) /\
  Rect.y (selectionRect (final o)) = roundY env (Rect.y rect) /\
  (~ unitX env == 0 -> ~ Rect.width (selectionRect (final o)) == 0) /\
  (~ unitY env == 0 -> ~ Rect.height (selectionRect (final o)) == 0) /\
  (forall s',
     isMouseDown s' = true ->
     SelectionView.fixed (selectionView s') = false ->
     start s' = Some p ->
     selectionRect (final (onMouseMove env e s')) = selectionRect (final o)).
Proof.
  intros Hd Hf Hs. cbv zeta.
  rewrite (onMouseMove_marquee e s p Hd Hf Hs). cbv zeta.
  cbn [completion calls final].
  refine (conj eq_refl (conj eq_refl (conj eq_refl (conj eq_refl
           (conj _ (conj eq_refl (conj eq_refl (conj _ (conj _ _))))))))).
  - cbn. exact Hf.
  - cbn. apply orElse_nonzero.
  - cbn. apply orElse_nonzero.
  - intros s' Hd' Hf' Hs'.
    now rewrite (onMouseMove_marquee e s' p Hd' Hf' Hs').
Qed.

Lemma onMouseMove_returns (e : MouseEvent) (s : State) :
  wellFormed s -> completion (onMouseMove env e s) = Return tt.
Proof.
  intros [_ Hw]. destruct (isMouseDown s) eqn:Ed.
  - destruct (Hw eq_refl) as (p & off & Hs & Ho).
    destruct (SelectionView.fixed (selectionView s)) eqn:Ef.
    + now rewrite (onMouseMove_fixed env e s off Ed Ef Ho).
    + now rewrite (onMouseMove_marquee e s p Ed Ef Hs).
  - now rewrite (onMouseMove_idle env e s Ed).
Qed.

(** X9.  On a handler object no handler ever throws a [TypeError]: the
    fields a move reads have been set by the pointer-down that precedes
    it.  The one throw there is is the [ReferenceError] of a release, and
    it happens exactly when the rectangle is not yet fixed, [selection] is
    unbound and the listener has at least one note. *)
Theorem selection_handlers_throw_only_at_release (ev : Event) (s : State) :
  reachable env s ->
  completion (handle env ev s) <> Throw TypeError /\
  (completion (handle env ev s) = Throw ReferenceError <->
   selection env = None /\
   SelectionView.fixed (selectionView s) = false /\
   exists n notes e, ev = MouseUp (n :: notes) e).
Proof.
  intros Hr. pose proof (reachable_wellFormed env s Hr) as Hw.
  destruct ev as [e|e|notes e]; cbn [handle].
  - rewrite (onMouseDown_returns e s).
    split; [discriminate|]. split; [discriminate|].
    intros (_ & _ & n & notes & e' & H). discriminate.
  - rewrite (onMouseMove_returns e s Hw).
    split; [discriminate|]. split; [discriminate|].
    intros (_ & _ & n & notes & e' & H). discriminate.
  - destruct (SelectionView.fixed (selectionView s)) eqn:Ef.
    + rewrite (onMouseUp_fixed env notes e s Ef). cbn.
      split; [discriminate|]. split; [discriminate|].
      intros (_ & H & _). discriminate.
    + rewrite (onMouseUp_unfixed env notes e s Ef). cbv zeta.
      destruct (selection env) as [r|]; [|destruct notes as [|n notes]];
        cbn; (split; [discriminate|]).
      * split; [discriminate|]. intros (H & _). discriminate.
      * split; [discriminate|].
        intros (_ & _ & n & notes & e' & H). discriminate.
      * split; [|reflexivity]. intros _.
        split; [reflexivity|]. split; [reflexivity|]. now exists n, notes, e.
Qed.

(** How each handler leaves the [fixed] flag, whether it returns or
    throws. *)
Lemma fixed_after_handle (ev : Event) (s : State) :
  SelectionView.fixed (selectionView (final (handle env ev s))) =
  match ev with
  | MouseDown e =>
      SelectionView.fixed (selectionView s)
      && containsPoint env (selectionRect s)
           (globalToLocal env (stageX e) (stageY e))
  | MouseMove _ => SelectionView.fixed (selectionView s)
  | MouseUp _ _ => true
  end.
Proof.
  destruct ev as [e|e|notes e]; cbn [handle].
  - unfold onMouseDown, bind. cbn.
    change (selectionRect (set_start _ (set_isMouseDown true s)))
      with (selectionRect s).
    destruct (containsPoint env (selectionRect s) _); cbn.
    + now rewrite andb_true_r.
    + now rewrite andb_false_r.
  - unfold onMouseMove, bind. cbn.
    destruct (isMouseDown s); cbn; [|reflexivity].
    destruct (SelectionView.fixed (selectionView s)) eqn:Ef; cbn.
    + destruct (dragOffset s); cbn; exact Ef.
    + destruct (start s); cbn; exact Ef.
  - destruct (SelectionView.fixed (selectionView s)) eqn:Ef.
    + rewrite (onMouseUp_fixed env notes e s Ef). exact Ef.
    + rewrite (onMouseUp_unfixed env notes e s Ef). cbv zeta.
      destruct (selection env); [|destruct notes]; reflexivity.
Qed.

(** A property of the state that every delivery of a run keeps holds
    after each of them. *)
Lemma dispatch_invariant {S E} (h : E -> M S unit) (P : S -> Prop)
    (es : list E) (s : S) :
  P s ->
  (forall e s, In e es -> P s -> P (final (h e s))) ->
  Forall (fun o => P (final o)) (dispatch h es s).
Proof.
  revert s. induction es as [|e es IH]; intros s Hs Hstep; cbn [dispatch].
  - constructor.
  - assert (H1 : P (final (h e s))) by (apply Hstep; [now left | exact Hs]).
    constructor; [exact H1|].
    apply IH; [exact H1|]. intros e' s' Hin. apply Hstep. now right.
Qed.

(** X10.  The life of the [fixed] flag.  From a pointer-down outside the
    rectangle through all the moves that follow it the rectangle is not
    fixed; from a release on, whether the release returned or threw, it is
    fixed, and it stays so through every further move and release, until a
    pointer-down. *)
Theorem fixed_from_release_to_press :
  (forall (s : State) (e : MouseEvent) (moves : list MouseEvent),
     containsPoint env (selectionRect s)
       (globalToLocal env (stageX e) (stageY e)) = false ->
     Forall
       (fun o => SelectionView.fixed (selectionView (final o)) = false)
       (dispatch (handle env) (MouseDown e :: map MouseMove moves) s)) /\
  (forall (s : State) (notes : list Note.t) (e : MouseEvent)
          (evs : list Event),
     forallb (fun ev => negb (isSelectionMouseDown ev)) evs = true ->
     Forall
       (fun o => SelectionView.fixed (selectionView (final o)) = true)
       (dispatch (handle env) (MouseUp notes e :: evs) s)).
Proof.
  split.
  - intros s e moves Hout. cbn [dispatch].
    assert (H0 : SelectionView.fixed
                   (selectionView (final (handle env (MouseDown e) s)))
                 = false).
    { rewrite fixed_after_handle, Hout. apply andb_false_r. }
    constructor; [exact H0|].
    apply (dispatch_invariant (handle env)
             (fun s => SelectionView.fixed (selectionView s) = false));
      [exact H0|].
    intros ev s1 Hin H1. apply in_map_iff in Hin as (m & <- & _).
    now rewrite (fixed_after_handle (MouseMove m)).
  - intros s notes e evs Hevs. cbn [dispatch].
    assert (H0 : SelectionView.fixed
                   (selectionView (final (handle env (MouseUp notes e) s)))
                 = true) by apply (fixed_after_handle (MouseUp notes e)).
    constructor; [exact H0|].
    apply (dispatch_invariant (handle env)
             (fun s => SelectionView.fixed (selectionView s) = true));
      [exact H0|].
    intros ev s1 Hin H1. rewrite fixed_after_handle.
    rewrite forallb_forall in Hevs. specialize (Hevs ev Hin).
    destruct ev; [discriminate | exact H1 | reflexivity].
Qed.

(** X12.  A move that repeats the pointer position of the move before it
    asks the listener for a zero displacement and leaves the handler as
    that move left it. *)
Theorem fixed_drag_move_repeated (e : MouseEvent) (s : State) :
  reachable env s ->
  isMouseDown s = true ->
  SelectionView.fixed (selectionView s) = true ->
  let o1 := onMouseMove env e s in
  let o2 := onMouseMove env e (final o1) in
  completion o2 = Return tt /\
  final o2 = final o1 /\
  exists d,
    calls o2 = [onMoveNotes (selectedNotes s) d] /\
    Point.x d == 0 /\ Point.y d == 0.
Proof.
  intros Hr Hd Hf.
  destruct (reachable_wellFormed env s Hr) as [_ Hw].
  destruct (Hw Hd) as (p & off & _ & Ho). cbv zeta.
  rewrite (onMouseMove_fixed env e s off Hd Hf Ho). cbv zeta.
  cbn [final].
  set (s1 := set_selectionRect _ _).
  assert (Hd1 : isMouseDown s1 = true) by exact Hd.
  assert (Hf1 : SelectionView.fixed (selectionView s1) = true) by exact Hf.
  assert (Ho1 : dragOffset s1 = Some off) by exact Ho.
  rewrite (onMouseMove_fixed env e s1 off Hd1 Hf1 Ho1). cbv zeta.
  cbn [completion final calls].
  split; [reflexivity|]. split; [reflexivity|].
  eexists. split; [reflexivity|]. cbn. split; ring.
Qed.

(** X13.  The selected notes change at one place only, the release that
    fixes a marquee, and what that release selects is drawn from the notes
    of the listener: every other delivery, a release that throws included,
    leaves the selected notes as they were. *)
Theorem selection_changes_only_at_marquee_release (ev : Event) (s : State) :
  selectedNotes (final (handle env ev s)) = selectedNotes s \/
  (exists notes e,
     ev = MouseUp notes e /\
     SelectionView.fixed (selectionView s) = false /\
     completion (handle env ev s) = Return tt /\
     incl (selectedNotes (final (handle env ev s))) notes).
Proof.
  destruct ev as [e|e|notes e]; cbn [handle].
  - left. unfold onMouseDown, bind. cbn.
    destruct (containsPoint env _ _); reflexivity.
  - left. unfold onMouseMove, bind. cbn.
    destruct (isMouseDown s); cbn; [|reflexivity].
    destruct (SelectionView.fixed (selectionView s)); cbn.
    + destruct (dragOffset s); reflexivity.
    + destruct (start s); reflexivity.
  - destruct (SelectionView.fixed (selectionView s)) eqn:Ef.
    + left. now rewrite (onMouseUp_fixed env notes e s Ef).
    + rewrite (onMouseUp_unfixed env notes e s Ef). cbv zeta.
      destruct (selection env) as [r|]; [|destruct notes as [|n notes]].
      * right. exists notes, e. repeat split. cbn. apply incl_filter.
      * right. exists [], e. repeat split. cbn. apply incl_refl.
      * left. reflexivity.
Qed.

(** X14.  A release that returns lets go of the pointer: every move after
    it, up to the next pointer-down, is a no-op. *)
Theorem move_after_release_is_noop (notes : list Note.t) (e e' : MouseEvent)
    (s : State) :
  completion (onMouseUp env notes e s) = Return tt ->
  onMouseMove env e' (final (onMouseUp env notes e s)) =
  mkOutcome (Return tt) (final (onMouseUp env notes e s)) [].
Proof.
  intros Hc. apply onMouseMove_idle. revert Hc.
  destruct (SelectionView.fixed (selectionView s)) eqn:Ef.
  - now rewrite (onMouseUp_fixed env notes e s Ef).
  - rewrite (onMouseUp_unfixed env notes e s Ef). cbv zeta.
    destruct (selection env) as [r|]; [|destruct notes]; cbn;
      try reflexivity.
    discriminate.
Qed.




End SelectionLifecycle.

(** ** Runs of the further properties on the sample grid *)

Section SampleRuns.
Import SelectionMouseHandler.

Lemma marquee_move_spans_rounded_points_witness :
  let env := gridEnv None in
  let s := final (onMouseDown env (stageEventAt 5 5)
                    (constructor emptySelectionView)) in
  let o := onMouseMove env (stageEventAt 47 30) s in
  selectionRect (final o) = Rect.mk 10 0 40 36 /\
  calls o = [] /\
  ~ Rect.width (selectionRect (final o)) == 0.
Proof.
  cbv zeta.
  destruct
    (marquee_move_spans_rounded_points (gridEnv None) (stageEventAt 47 30)
       (final (onMouseDown (gridEnv None) (stageEventAt 5 5)
                 (constructor emptySelectionView)))
       (Point.mk 5 5) eq_refl eq_refl eq_refl)
    as (_ & Hc & _ & _ & _ & _ & _ & Hw & _).
  split; [reflexivity|]. split; [exact Hc|].
  apply Hw. qcompare.
Defined.

Lemma selection_handlers_throw_only_at_release_witness :
  let env := gridEnv None in
  let s := lastState (constructor emptySelectionView)
             (dispatch (handle env)
                [MouseDown (stageEventAt 5 5); MouseMove (stageEventAt 47 30)]
                (constructor emptySelectionView)) in
  completion (handle env (MouseUp [sampleNote] (stageEventAt 47 30)) s)
  = Throw ReferenceError /\
  completion (handle env (MouseMove (stageEventAt 50 31)) s)
  <> Throw TypeError.
Proof.
  cbv zeta. split.
  - apply (selection_handlers_throw_only_at_release (gridEnv None)
             (MouseUp [sampleNote] (stageEventAt 47 30)) _
             (reachable_dispatch (gridEnv None)
                [MouseDown (stageEventAt 5 5);
                 MouseMove (stageEventAt 47 30)]
                _ (reachable_constructor _ emptySelectionView))).
    split; [reflexivity|]. split; [reflexivity|].
    now exists sampleNote, [], (stageEventAt 47 30).
  - apply (selection_handlers_throw_only_at_release (gridEnv None)
             (MouseMove (stageEventAt 50 31)) _
             (reachable_dispatch (gridEnv None)
                [MouseDown (stageEventAt 5 5);
                 MouseMove (stageEventAt 47 30)]
                _ (reachable_constructor _ emptySelectionView))).
Defined.

Lemma fixed_from_release_to_press_witness :
  let env := gridEnv None in
  let s0 := constructor emptySelectionView in
  Forall (fun o => SelectionView.fixed (selectionView (final o)) = false)
    (dispatch (handle env)
       (MouseDown (stageEventAt 5 5)
        :: map MouseMove [stageEventAt 20 9; stageEventAt 47 30])
       s0) /\
  Forall (fun o => SelectionView.fixed (selectionView (final o)) = true)
    (dispatch (handle env)
       (MouseUp [sampleNote] (stageEventAt 47 30)
        :: [MouseMove (stageEventAt 50 31);
            MouseUp [] (stageEventAt 50 31)])
       s0).
Proof.
  cbv zeta. split.
  - apply (proj1 (fixed_from_release_to_press (gridEnv None))). reflexivity.
  - apply (proj2 (fixed_from_release_to_press (gridEnv None))). reflexivity.
Defined.

Lemma fixed_drag_move_repeated_witness :
  let env := gridEnv (Some (Rect.mk 10 0 40 36)) in
  let s :=
    lastState (constructor emptySelectionView)
      (dispatch (handle env)
         (marquee [sampleNote] ++ [MouseDown (stageEventAt 20 20)])
         (constructor emptySelectionView)) in
  let o1 := onMouseMove env (stageEventAt 31 20) s in
  let o2 := onMouseMove env (stageEventAt 31 20) (final o1) in
  calls o1 = [onMoveNotes [sampleNote] (Point.mk 10 0)] /\
  final o2 = final o1 /\
  exists d,
    calls o2 = [onMoveNotes [sampleNote] d] /\
    Point.x d == 0 /\ Point.y d == 0.
Proof.
  cbv zeta.
  destruct
    (fixed_drag_move_repeated (gridEnv (Some (Rect.mk 10 0 40 36)))
       (stageEventAt 31 20)
       (lastState (constructor emptySelectionView)
          (dispatch (handle (gridEnv (Some (Rect.mk 10 0 40 36))))
             (marquee [sampleNote] ++ [MouseDown (stageEventAt 20 20)])
             (constructor emptySelectionView)))
       (reachable_dispatch _ _ _ (reachable_constructor _ emptySelectionView))
       eq_refl eq_refl)
    as (_ & Hs & d & Hc & Hx & Hy).
  split; [reflexivity|]. split; [exact Hs|].
  exists d. split; [exact Hc|]. split; [exact Hx | exact Hy].
Defined.

Lemma selection_changes_only_at_marquee_release_witness :
  let env := gridEnv (Some (Rect.mk 10 0 40 36)) in
  let s := lastState (constructor emptySelectionView)
             (dispatch (handle env)
                [MouseDown (stageEventAt 5 5); MouseMove (stageEventAt 47 30)]
                (constructor emptySelectionView)) in
  let far := Note.mk 8 300 300 in
  selectedNotes
    (final (handle env (MouseUp [sampleNote; far] (stageEventAt 47 30)) s))
  = [sampleNote] /\
  (selectedNotes
     (final (handle env (MouseUp [sampleNote; far] (stageEventAt 47 30)) s))
   = selectedNotes s \/
   exists notes e,
     MouseUp [sampleNote; far] (stageEventAt 47 30) = MouseUp notes e /\
     SelectionView.fixed (selectionView s) = false /\
     completion
       (handle env (MouseUp [sampleNote; far] (stageEventAt 47 30)) s)
     = Return tt /\
     incl
       (selectedNotes
          (final
             (handle env (MouseUp [sampleNote; far] (stageEventAt 47 30)) s)))
       notes).
Proof.
  cbv zeta. split; [reflexivity|].
  exact (selection_changes_only_at_marquee_release
           (gridEnv (Some (Rect.mk 10 0 40 36)))
           (MouseUp [sampleNote; Note.mk 8 300 300] (stageEventAt 47 30))
           _).
Defined.

Lemma move_after_release_is_noop_witness :
  let env := gridEnv None in
  let s := lastState (constructor emptySelectionView)
             (dispatch (handle env)
                [MouseDown (stageEventAt 5 5); MouseMove (stageEventAt 47 30)]
                (constructor emptySelectionView)) in
  let released := final (onMouseUp env [] (stageEventAt 47 30) s) in
  onMouseMove env (stageEventAt 90 90) released =
  mkOutcome (Return tt) released [].
Proof.
  cbv zeta.
  apply (move_after_release_is_noop (gridEnv None) [] (stageEventAt 47 30)).
  reflexivity.
Defined.



End SampleRuns.

(** ** A whole marquee gesture *)

Section MarqueeGesture.
Import SelectionMouseHandler.
Variable env : Env.

Lemma dispatch_app {S E} (h : E -> M S unit) (es1 es2 : list E) (s : S) :
  dispatch h (es1 ++ es2) s =
  dispatch h es1 s ++ dispatch h es2 (lastState s (dispatch h es1 s)).
Proof.
  revert s. induction es1 as [|e es1 IH]; intros s; [reflexivity|].
  cbn [app dispatch]. now rewrite IH.
Qed.

Lemma lastState_cons {S A} (s : S) (o : Outcome S A)
    (os : list (Outcome S A)) :
  lastState s (o :: os) = lastState (final o) os.
Proof. reflexivity. Qed.

Lemma lastState_app {S A} (s : S) (os1 os2 : list (Outcome S A)) :
  lastState s (os1 ++ os2) = lastState (lastState s os1) os2.
Proof. apply fold_left_app. Qed.

(** The moves of a marquee call nothing and leave the gesture open. *)
Lemma marquee_moves_run (moves : list MouseEvent) (s : State) (p : Point.t) :
  isMouseDown s = true ->
  SelectionView.fixed (selectionView s) = false ->
  start s = Some p ->
  let os := dispatch (handle env) (map MouseMove moves) s in
  let s' := lastState s os in
  flat_map calls os = [] /\
  isMouseDown s' = true /\
  SelectionView.fixed (selectionView s') = false /\
  start s' = Some p.
Proof.
  cbv zeta. revert s.
  induction moves as [|m moves IH]; intros s Hd Hf Hs.
  - cbn. auto.
  - cbn [map dispatch handle flat_map].
    rewrite (onMouseMove_marquee env m s p Hd Hf Hs). cbv zeta.
    cbn [final calls app].
    set (s1 := set_selectionRect _ _).
    exact (IH s1 Hd Hf Hs).
Qed.

(** X15.  With [selection] bound, a whole marquee gesture (a pointer-down
    outside the rectangle, any number of moves, a release) calls the
    listener twice and no more: [onSelectNotes] with no note at the
    pointer-down, and [onSelectNotes] at the release with the notes of the
    listener that the rectangle [selection] contains, in the listener's
    order.  The gesture ends with those notes selected, the rectangle
    fixed and the pointer let go. *)
Theorem marquee_gesture_selects_twice (s : State) (e e' : MouseEvent)
    (moves : list MouseEvent) (notes : list Note.t) (r : Rect.t) :
  containsPoint env (selectionRect s)
    (globalToLocal env (stageX e) (stageY e)) = false ->
  selection env = Some r ->
  let os :=
    dispatch (handle env)
      (MouseDown e :: map MouseMove moves ++ [MouseUp notes e']) s in
  let selected :=
    filter (fun n => containsPoint env r (Note.point n)) notes in
  flat_map calls os = [onSelectNotes []; onSelectNotes selected] /\
  selectedNotes (lastState s os) = selected /\
  SelectionView.fixed (selectionView (lastState s os)) = true /\
  isMouseDown (lastState s os) = false.
Proof.
  intros Hout Hsel. cbv zeta.
  destruct (onMouseDown_outside env e s Hout) as [Hf0 Hc0].
  cbn [dispatch handle]. rewrite lastState_cons.
  set (s0 := final (onMouseDown env e s)) in *.
  assert (Hd0 : isMouseDown s0 = true).
  { unfold s0, onMouseDown, bind. cbn.
    destruct (containsPoint env _ _); reflexivity. }
  assert (Hs0 : start s0 = Some (globalToLocal env (stageX e) (stageY e))).
  { unfold s0, onMouseDown, bind. cbn.
    destruct (containsPoint env _ _); reflexivity. }
  rewrite dispatch_app, lastState_app.
  cbn [flat_map]. rewrite flat_map_app, Hc0.
  destruct (marquee_moves_run moves s0 _ Hd0 Hf0 Hs0) as (Hc & Hd & Hf & _).
  rewrite Hc.
  set (s1 := lastState s0 (dispatch (handle env) (map MouseMove moves) s0))
    in *.
  cbn [dispatch handle flat_map app]. rewrite lastState_cons.
  rewrite (onMouseUp_unfixed env notes e' s1 Hf). cbv zeta.
  rewrite Hsel. cbn. repeat split.
Qed.

(** X16.  On a handler object whose rectangle is fixed, a pointer-down
    inside the rectangle followed by a release calls the listener once,
    [onClickNotes] with the selected notes and the event of the release;
    the rectangle and the selected notes are afterwards what they were,
    and the pointer is let go. *)
Theorem press_release_clicks (s : State) (e e' : MouseEvent)
    (notes : list Note.t) :
  reachable env s ->
  SelectionView.fixed (selectionView s) = true ->
  containsPoint env (selectionRect s)
    (globalToLocal env (stageX e) (stageY e)) = true ->
  let os := dispatch (handle env) [MouseDown e; MouseUp notes e'] s in
  flat_map calls os = [onClickNotes (selectedNotes s) e'] /\
  selectionView (lastState s os) = selectionView s /\
  selectedNotes (lastState s os) = selectedNotes s /\
  isMouseDown (lastState s os) = false.
Proof.
  intros Hr Hf Hin. cbv zeta.
  destruct (onMouseDown_inside env e s Hin) as (Hv & Hn & Hc).
  assert (Hm : isMouseMoved (final (onMouseDown env e s)) = false).
  { apply (reachable_wellFormed env).
    exact (reachable_handle env s (MouseDown e) Hr). }
  cbn [dispatch handle flat_map]. rewrite !lastState_cons.
  set (s0 := final (onMouseDown env e s)) in *.
  assert (Hf0 : SelectionView.fixed (selectionView s0) = true)
    by now rewrite Hv.
  rewrite Hc, (onMouseUp_fixed env notes e' s0 Hf0), Hm, Hn.
  cbn [calls final lastState fold_left app].
  split; [reflexivity|]. split; [exact Hv|]. split; [exact Hn|].
  reflexivity.
Qed.

End MarqueeGesture.

Lemma press_release_clicks_witness :
  let env := gridEnv (Some (Rect.mk 10 0 40 36)) in
  let s :=
    lastState (SelectionMouseHandler.constructor emptySelectionView)
      (dispatch (SelectionMouseHandler.handle env) (marquee [sampleNote])
         (SelectionMouseHandler.constructor emptySelectionView)) in
  flat_map calls
    (dispatch (SelectionMouseHandler.handle env) (pressRelease []) s) =
  [onClickNotes [sampleNote] (stageEventAt 20 20)].
Proof.
  cbv zeta.
  exact (proj1
           (press_release_clicks (gridEnv (Some (Rect.mk 10 0 40 36)))
              (lastState (SelectionMouseHandler.constructor emptySelectionView)
                 (dispatch
                    (SelectionMouseHandler.handle
                       (gridEnv (Some (Rect.mk 10 0 40 36))))
                    (marquee [sampleNote])
                    (SelectionMouseHandler.constructor emptySelectionView)))
              (stageEventAt 20 20) (stageEventAt 20 20) []
              (reachable_dispatch _ _ _
                 (SelectionMouseHandler.reachable_constructor _
                    emptySelectionView))
              eq_refl eq_refl)).
Defined.

Lemma marquee_gesture_selects_twice_witness :
  let env := gridEnv (Some (Rect.mk 10 0 40 36)) in
  let s0 := SelectionMouseHandler.constructor emptySelectionView in
  let os :=
    dispatch (SelectionMouseHandler.handle env)
      (SelectionMouseHandler.MouseDown (stageEventAt 5 5)
       :: map SelectionMouseHandler.MouseMove
            [stageEventAt 20 9; stageEventAt 47 30]
       ++ [SelectionMouseHandler.MouseUp
             [sampleNote; Note.mk 8 300 300] (stageEventAt 47 30)])
      s0 in
  flat_map calls os = [onSelectNotes []; onSelectNotes [sampleNote]].
Proof.
  cbv zeta.
  exact (proj1
           (marquee_gesture_selects_twice
              (gridEnv (Some (Rect.mk 10 0 40 36)))
              (SelectionMouseHandler.constructor emptySelectionView)
              (stageEventAt 5 5) (stageEventAt 47 30)
              [stageEventAt 20 9; stageEventAt 47 30]
              [sampleNote; Note.mk 8 300 300]
              (Rect.mk 10 0 40 36) eq_refl eq_refl)).
Defined.
